(** * os-dns-native: the response decoder of [binding.cc]

    A shallow embedding of the C++ binding that queries the system resolver
    and turns the wire-format answer into strings, together with the
    properties of its record decoders, its response parser and its worker.

    Conventions of the embedding.
    - A byte ([uint8_t]) is a [Byte.byte]; unsigned quantities ([size_t],
      [uint16_t]) are [N]; [int] values (return codes, [errno], the numeric
      value of an enum) are [Z].
    - The response lives in one buffer, [raw_data_].  A pointer into it is
      the offset ([Z]) from its first byte, so the buffer is a [list byte]
      and reading through a pointer is a lookup that can miss.
    - A C++ function that can throw returns a [result]: the value, the
      exception, or [Fault] when it reads or stores outside a buffer.
      [Fault] marks these accesses only: forming a pointer that is not
      dereferenced ([&raw_data_[0]] on an empty vector, [data + 6] past the
      end) is not tracked.
    - A [const char*] is read as a C string: the characters before the
      first NUL.  A [std::string] keeps every character, NUL included.
    - The resolver library (libresolv: [ns_initparse], [ns_parserr],
      [dn_expand], [res_ninit], [res_nsearch], [strerror], [hstrerror]) is
      not part of the binding.  It is an interface, [Resolv], and every
      property below holds for each implementation of it.  [Wire] is one
      implementation, after RFC 1035, used to run the binding on concrete
      messages.
    - N-API is an interface too, [Napi]: the JavaScript strings that
      [Napi::String::New] makes of UTF-8 bytes.  [Utf8] is one
      implementation, used on concrete messages. *)

From Stdlib Require Import List String Ascii NArith ZArith Bool Lia.
From Stdlib.Strings Require Import Byte.
From Stdlib Require Import DecimalString HexadecimalString DecimalN HexadecimalN.
Import ListNotations.

Local Open Scope string_scope.
Local Open Scope Z_scope.

(** ** Outcomes of a C++ call *)

Inductive exception : Type :=
| runtime_error (what_arg : string)
| length_error.

Inductive result (A : Type) : Type :=
| Ok (a : A)
| Throw (e : exception)
| Fault.

Arguments Ok {A} a.
Arguments Throw {A} e.
Arguments Fault {A}.

Definition bind {A B : Type} (c : result A) (k : A -> result B) : result B :=
  match c with
  | Ok a => k a
  | Throw e => Throw e
  | Fault => Fault
  end.

Notation "x <- c ;; k" := (bind c (fun x => k))
  (at level 61, c at next level, right associativity).

Definition throws {A : Type} (c : result A) : Prop :=
  exists e, c = Throw e.

Definition returns {A : Type} (c : result A) : Prop :=
  exists a, c = Ok a.

(** ** Memory: the response buffer and pointers into it *)

Definition ptr : Type := Z.

Definition load (mem : list byte) (p : ptr) : result byte :=
  if p <? 0 then Fault
  else match nth_error mem (Z.to_nat p) with
       | Some b => Ok b
       | None => Fault
       end.

(** The [n] bytes at [p], [p+1], ... *)
Fixpoint load_range (mem : list byte) (p : ptr) (n : nat) : result (list byte) :=
  match n with
  | O => Ok []
  | S n' =>
      b <- load mem p ;;
      bs <- load_range mem (p + 1) n' ;;
      Ok (b :: bs)
  end.

(** [std::string(first, last)] over bytes: one character per byte. *)
Definition string_of_bytes (bs : list byte) : string :=
  string_of_list_ascii (map ascii_of_byte bs).

Definition u8 (b : byte) : N := Byte.to_N b.

(** ** Text formatting *)

(** [std::to_string] and [printf]'s [%d] on a non-negative value. *)
Definition to_string (n : N) : string :=
  DecimalString.NilZero.string_of_uint (N.to_uint n).

(** The inverse reading, used to state what a printed number denotes. *)
Definition decimal_value (s : string) : option N :=
  option_map N.of_uint (DecimalString.NilZero.uint_of_string s).

Fixpoint pad0 (width : nat) (s : string) : string :=
  match width with
  | O => s
  | S w => if Nat.ltb (String.length s) width then pad0 w (String "0" s) else s
  end.

(** [printf]'s [%02x]: lowercase hexadecimal, zero-padded to two digits. *)
Definition fmt_02x (n : N) : string :=
  pad0 2 (HexadecimalString.NilZero.string_of_uint (N.to_hex_uint n)).

Definition hex_value (s : string) : option N :=
  option_map N.of_hex_uint (HexadecimalString.NilZero.uint_of_string s).

(** [snprintf(buf, size, ...)]: at most [size - 1] characters are stored. *)
Definition snprintf (size : nat) (formatted : string) : string :=
  substring 0 (size - 1) formatted.

Definition is_digit (c : ascii) : bool :=
  let n := N_of_ascii c in ((48 <=? n) && (n <=? 57))%N.

Definition is_lower_hex (c : ascii) : bool :=
  let n := N_of_ascii c in
  (((48 <=? n) && (n <=? 57)) || ((97 <=? n) && (n <=? 102)))%N.

Fixpoint all_chars (p : ascii -> bool) (s : string) : bool :=
  match s with
  | EmptyString => true
  | String c s' => p c && all_chars p s'
  end.

Fixpoint starts_with (p s : string) : bool :=
  match p, s with
  | EmptyString, _ => true
  | String a p', String b s' => Ascii.eqb a b && starts_with p' s'
  | String _ _, EmptyString => false
  end.

(** [sub] occurs in [s] as a run of consecutive characters. *)
Fixpoint occurs (sub s : string) : bool :=
  starts_with sub s ||
  match s with
  | EmptyString => false
  | String _ s' => occurs sub s'
  end.

Definition dquote : string := String (ascii_of_nat 34) EmptyString.
Definition NUL : ascii := ascii_of_nat 0.

(** ** <arpa/nameser.h> *)

Definition ns_t_a : Z := 1.
Definition ns_t_cname : Z := 5.
Definition ns_t_txt : Z := 16.
Definition ns_t_aaaa : Z := 28.
Definition ns_t_srv : Z := 33.
Definition ns_c_in : Z := 1.

Inductive ns_sect : Type := ns_s_qd | ns_s_an | ns_s_ns | ns_s_ar.

(** The parse handle: message bounds, the four section counts, and the
    library's cursor ([_sect] is [None] for [ns_s_max]). *)
Record ns_msg : Type := {
  _msg : ptr;
  _eom : ptr;
  _counts : ns_sect -> N;
  _sections : ns_sect -> ptr;
  _sect : option ns_sect;
  _rrnum : Z;
  _msg_ptr : ptr
}.

Record ns_rr : Type := {
  rr_type : N;
  rr_class : N;
  ttl : N;
  rdlength : N;
  rdata : ptr
}.

Definition ns_msg_base (handle : ns_msg) : ptr := _msg handle.
Definition ns_msg_end (handle : ns_msg) : ptr := _eom handle.
Definition ns_msg_count (handle : ns_msg) (section : ns_sect) : N :=
  _counts handle section.
Definition ns_rr_rdata (rr : ns_rr) : ptr := rdata rr.
Definition ns_rr_rdlen (rr : ns_rr) : N := rdlength rr.

(** ** The binding's types *)

(** [enum class QueryType] and [enum class QueryClass] have underlying type
    [int]; [Lookup] builds them with [static_cast] from any number the
    caller passes, so a value is any [int]. *)
Definition QueryType : Type := Z.
Definition QueryClass : Type := Z.

Module QueryTypes.

Definition A : QueryType := ns_t_a.
Definition AAAA : QueryType := ns_t_aaaa.
Definition SRV : QueryType := ns_t_srv.
Definition TXT : QueryType := ns_t_txt.
Definition CNAME : QueryType := ns_t_cname.

End QueryTypes.

Record ResourceRecord : Type := {
  record_ : ns_rr;
  start_ : ptr;
  end_ : ptr;
  pos_ : N
}.

Definition rawData (r : ResourceRecord) : ptr * N :=
  (ns_rr_rdata (record_ r), ns_rr_rdlen (record_ r)).

(** The payload as a byte sequence, when it lies inside the buffer. *)
Definition payload (mem : list byte) (r : ResourceRecord) : result (list byte) :=
  load_range mem (fst (rawData r)) (N.to_nat (snd (rawData r))).

(** ** Record decoders that read only the payload *)

Definition asTXT (mem : list byte) (r : ResourceRecord) : result string :=
  let '(data, len) := rawData r in
  if (len =? 0)%N then
    Throw (runtime_error "Invalid DNS TXT record received")
  else
    d0 <- load mem data ;;
    if (len - 1 <? u8 d0)%N then
      Throw (runtime_error "Invalid DNS TXT record received")
    else
      text <- load_range mem (data + 1) (N.to_nat (u8 d0)) ;;
      Ok (string_of_bytes text).

Definition asA (mem : list byte) (r : ResourceRecord) : result string :=
  let '(data, len) := rawData r in
  if negb (len =? 4)%N then
    Throw (runtime_error "Invalid DNS A record receive")
  else
    d0 <- load mem data ;;
    d1 <- load mem (data + 1) ;;
    d2 <- load mem (data + 2) ;;
    d3 <- load mem (data + 3) ;;
    Ok (snprintf 20
          (to_string (u8 d0) ++ "." ++ to_string (u8 d1) ++ "." ++
           to_string (u8 d2) ++ "." ++ to_string (u8 d3))).

(** The sixteen arguments of the [snprintf] call, two per group. *)
Fixpoint fmt_groups (ds : list byte) : list string :=
  match ds with
  | hi :: lo :: rest => (fmt_02x (u8 hi) ++ fmt_02x (u8 lo)) :: fmt_groups rest
  | _ => []
  end.

Definition asAAAA (mem : list byte) (r : ResourceRecord) : result string :=
  let '(data, len) := rawData r in
  if negb (len =? 16)%N then
    Throw (runtime_error "Invalid DNS A record receive")
  else
    ds <- load_range mem data 16 ;;
    Ok (snprintf 60 (String.concat ":" (fmt_groups ds))).

Definition asCNAME (mem : list byte) (r : ResourceRecord) : result string :=
  asTXT mem r.

(** ** The resolver library and the platform

    What the binding calls but does not define.  A library function that
    reads the message takes the buffer; one that stores into a caller's
    buffer returns the bytes it stored; one after which the binding reads
    [errno] or [h_errno] returns that value too. *)

Class Resolv : Type := {
  res_state : Type;
  (** [res_ninit(&state)], entered with [errno = 0]:
      return code, state, [errno]. *)
  res_ninit : Z * res_state * Z;
  (** [res_nsearch(&state, name, class, type, answer, anslen)], entered
      with [h_errno = 0]: return code, bytes stored in [answer], [h_errno].
      The library is handed [name.c_str()]; it is given the string here
      and reads it as a C string. *)
  res_nsearch : res_state -> string -> Z -> Z -> N -> Z * list byte * Z;
  (** [ns_initparse(msg, msglen, &handle)]: return code and handle. *)
  ns_initparse : list byte -> ptr -> N -> Z * ns_msg;
  (** [ns_parserr(&handle, section, rrnum, &rr)]:
      return code, handle, record, [errno]. *)
  ns_parserr : list byte -> ns_msg -> ns_sect -> Z -> Z * ns_msg * ns_rr * Z;
  (** [dn_expand(msg, eom, src, dst, dstsiz)]: return code and the
      characters stored at [dst], terminator included. *)
  dn_expand : list byte -> ptr -> ptr -> ptr -> N -> Z * string;
  (** The characters at the pointer [strerror(errnum)] returns, and at
      the one [hstrerror(err)] returns. *)
  strerror_chars : Z -> string;
  hstrerror_chars : Z -> string;
  (** Byte order of the host, which [memcpy] into a [uint16_t] and
      [ntohs] both follow. *)
  host_little_endian : bool
}.

(** [memcpy] of two bytes into a [uint16_t]. *)
Definition uint16_of_bytes (little_endian : bool) (b0 b1 : byte) : Z :=
  if little_endian
  then Z.lor (Z.of_N (u8 b0)) (Z.shiftl (Z.of_N (u8 b1)) 8)
  else Z.lor (Z.shiftl (Z.of_N (u8 b0)) 8) (Z.of_N (u8 b1)).

Definition ntohs (little_endian : bool) (x : Z) : Z :=
  if little_endian
  then Z.lor (Z.shiftl (Z.land x 255) 8) (Z.land (Z.shiftr x 8) 255)
  else x.

(** [std::string(n, c)]. *)
Fixpoint string_fill (n : nat) (c : ascii) : string :=
  match n with
  | O => EmptyString
  | S n' => String c (string_fill n' c)
  end.

(** [s.find(c)]: position of the first [c], or [npos]. *)
Fixpoint find (c : ascii) (s : string) : option nat :=
  match s with
  | EmptyString => None
  | String a s' =>
      if Ascii.eqb a c then Some O else option_map S (find c s')
  end.

(** A [const char*] read as a C string: the characters before the first
    NUL. *)
Fixpoint c_string (s : string) : string :=
  match s with
  | EmptyString => EmptyString
  | String a s' =>
      if Ascii.eqb a NUL then EmptyString else String a (c_string s')
  end.

(** [std::exception::what], a [const char*]: the C string of the message
    the exception was built with.  The text of a [length_error] raised by
    [std::string::resize] is the one libstdc++ gives. *)
Definition what (e : exception) : string :=
  match e with
  | runtime_error s => c_string s
  | length_error => "basic_string::_M_replace_aux"
  end.

(** [strerror] and [hstrerror] as the binding uses them, appended to a
    [std::string]: the C string at the pointer returned. *)
Definition strerror {L : Resolv} (errnum : Z) : string :=
  c_string (strerror_chars errnum).

Definition hstrerror {L : Resolv} (err : Z) : string :=
  c_string (hstrerror_chars err).

(** [int x = number.As<Napi::Number>()] for an integral JavaScript number:
    the low 32 bits, as a signed [int]. *)
Definition int32_of_number (n : Z) : Z :=
  (n + 2147483648) mod 4294967296 - 2147483648.

(** A callee storing [stored] at the start of the caller's buffer. *)
Definition store_string (buf stored : string) : result string :=
  if Nat.ltb (String.length buf) (String.length stored) then Fault
  else Ok (stored ++ substring (String.length stored)
                       (String.length buf - String.length stored) buf).

Definition store_bytes (buf stored : list byte) : result (list byte) :=
  if Nat.ltb (List.length buf) (List.length stored) then Fault
  else Ok (stored ++ skipn (List.length stored) buf)%list.

(** [std::vector<uint8_t>::resize(n)]. *)
Definition resize (buf : list byte) (n : nat) : list byte :=
  (firstn n buf ++ repeat x00 (n - List.length buf))%list.

Record SrvHeader : Type := {
  priority : Z;
  weight : Z;
  port : Z
}.

Definition sizeof_SrvHeader : Z := 6.

Record DNSReponse : Type := {
  raw_data_ : list byte;
  records_ : list ResourceRecord;
  answer_ : ns_msg
}.

Record DNSWorker : Type := {
  result_ : list string;
  name_ : string;
  cls_ : QueryClass;
  type_ : QueryType
}.

(** N-API: the JavaScript strings the binding builds. *)
Class Napi : Type := {
  js_string : Type;
  (** [Napi::String::New(env, s)]: the JavaScript string that the bytes of
      [s], decoded as UTF-8, make. *)
  String_New : string -> js_string
}.

(** What reaches the JavaScript callback: [(null, result)] from [OnOK],
    with the strings N-API made, or the error that [AsyncWorker::OnError]
    builds from the recorded text. *)
Inductive delivery (value : Type) : Type :=
| CallbackResult (strings : list value)
| CallbackError (message : string)
| Undefined.

Arguments CallbackResult {value} strings.
Arguments CallbackError {value} message.
Arguments Undefined {value}.

Section Binding.

Context {L : Resolv} {J : Napi}.

Definition asSRV (mem : list byte) (r : ResourceRecord) : result string :=
  let '(data, len) := rawData r in
  if (data <? start_ r) || (end_ r <? data + sizeof_SrvHeader) then
    Throw (runtime_error ("Incorrect result " ++ to_string (pos_ r) ++
                          " of SRV answer: Incorrect result size"))
  else
    (* memcpy(&header, data, sizeof(header)) *)
    p0 <- load mem data ;;
    p1 <- load mem (data + 1) ;;
    w0 <- load mem (data + 2) ;;
    w1 <- load mem (data + 3) ;;
    t0 <- load mem (data + 4) ;;
    t1 <- load mem (data + 5) ;;
    let le := host_little_endian in
    let header := {| priority := uint16_of_bytes le p0 p1;
                     weight := uint16_of_bytes le w0 w1;
                     port := uint16_of_bytes le t0 t1 |} in
    let header := {| priority := priority header;
                     weight := weight header;
                     port := ntohs le (port header) |} in
    let header := {| priority := ntohs le (priority header);
                     weight := weight header;
                     port := port header |} in
    let header := {| priority := priority header;
                     weight := ntohs le (weight header);
                     port := port header |} in
    let name := string_fill (N.to_nat 8192) "@" in
    let '(size, stored) :=
      dn_expand mem (start_ r) (end_ r) (data + sizeof_SrvHeader)
                (N.of_nat (String.length name)) in
    name <- store_string name stored ;;
    if size <? 1 then
      Throw (runtime_error ("Incorrect result " ++ to_string (pos_ r) ++
                            " of SRV answer: Invalid hostname format"))
    else
      match find NUL name with
      | None => Throw length_error
      | Some k =>
          let name := substring 0 k name in
          let name := name ++ ":" in
          let name := name ++ to_string (Z.to_N (port header)) in
          let name := name ++ ",prio=" in
          let name := name ++ to_string (Z.to_N (priority header)) in
          let name := name ++ ",weight=" in
          let name := name ++ to_string (Z.to_N (weight header)) in
          Ok name
      end.

Definition read (mem : list byte) (r : ResourceRecord) (type : QueryType)
  : result string :=
  if type =? QueryTypes.A then asA mem r
  else if type =? QueryTypes.AAAA then asAAAA mem r
  else if type =? QueryTypes.SRV then asSRV mem r
  else if type =? QueryTypes.TXT then asTXT mem r
  else if type =? QueryTypes.CNAME then asCNAME mem r
  else Ok EmptyString.

Definition ResourceRecord_ctor (mem : list byte) (msg : ns_msg) (pos : N)
  : result (ns_msg * ResourceRecord) :=
  let start := ns_msg_base msg in
  let end' := ns_msg_end msg in
  let '(rc, msg', rr, errno) := ns_parserr mem msg ns_s_an (Z.of_N pos) in
  if negb (rc =? 0) then
    Throw (runtime_error ("Invalid record " ++ to_string pos ++
                          " of DNS answer: " ++ strerror errno))
  else
    Ok (msg', {| record_ := rr; start_ := start; end_ := end'; pos_ := pos |}).

(** The loop of the constructor: [count] iterations left, the next index
    is [i]. *)
Fixpoint emplace_records (mem : list byte) (answer : ns_msg) (i : N)
  (count : nat) (records : list ResourceRecord)
  : result (ns_msg * list ResourceRecord) :=
  match count with
  | O => Ok (answer, records)
  | S count' =>
      ar <- ResourceRecord_ctor mem answer i ;;
      emplace_records mem (fst ar) (i + 1)%N count' (records ++ [snd ar])%list
  end.

(** [&raw_data_[0]] reaches the parser as offset 0, also when the vector
    is empty: the binding hands the pointer on without reading through
    it. *)
Definition DNSReponse_ctor (search : string) (raw_data : list byte)
  : result DNSReponse :=
  let '(rc, answer) := ns_initparse raw_data 0 (N.of_nat (List.length raw_data)) in
  if negb (rc =? 0) then
    Throw (runtime_error ("Invalid DNS answer for " ++ dquote ++ search ++ dquote))
  else
    let nrecords := ns_msg_count answer ns_s_an in
    if (nrecords =? 0)%N then
      Ok {| raw_data_ := raw_data; records_ := []; answer_ := answer |}
    else
      ar <- emplace_records raw_data answer 0 (N.to_nat nrecords) [] ;;
      Ok {| raw_data_ := raw_data; records_ := snd ar; answer_ := fst ar |}.

Definition DNSController_ctor : result res_state :=
  let '(rc, state, errno) := res_ninit in
  if negb (rc =? 0) then
    Throw (runtime_error ("Could not perform DNS lookup, res_ninit() failed: " ++
                          strerror errno))
  else Ok state.

(** The first half of [DNSController::Lookup]: the buffer that is moved
    into the [DNSReponse]. *)
Definition Lookup_answer (state : res_state) (name : string)
  (cls : QueryClass) (type : QueryType) : result (list byte) :=
  let answer := repeat x00 (N.to_nat 65536) in
  let '(rc, stored, h_errno) :=
    res_nsearch state name cls type (N.of_nat (List.length answer)) in
  answer <- store_bytes answer stored ;;
  if rc <? 0 then
    Throw (runtime_error ("Failed to look up " ++ dquote ++ name ++ dquote ++
                          ": " ++ hstrerror h_errno))
  else
    Ok (resize answer (Z.to_nat rc)).

Definition DNSController_Lookup (state : res_state) (name : string)
  (cls : QueryClass) (type : QueryType) : result DNSReponse :=
  answer <- Lookup_answer state name cls type ;;
  DNSReponse_ctor name answer.

(** The loop of [DNSWorker::Execute] over [response.records()]; the
    strings collected so far stay in [result_] when a decoder throws. *)
Fixpoint read_records (mem : list byte) (type : QueryType)
  (records : list ResourceRecord) (collected : list string)
  : list string * result unit :=
  match records with
  | [] => (collected, Ok tt)
  | record :: rest =>
      match read mem record type with
      | Ok s => read_records mem type rest (collected ++ [s])%list
      | Throw e => (collected, Throw e)
      | Fault => (collected, Fault)
      end
  end.

Definition set_result (w : DNSWorker) (collected : list string) : DNSWorker :=
  {| result_ := collected; name_ := name_ w; cls_ := cls_ w; type_ := type_ w |}.

Definition Execute (w : DNSWorker) : DNSWorker * result unit :=
  match DNSController_ctor with
  | Ok controller =>
      match DNSController_Lookup controller (name_ w) (cls_ w) (type_ w) with
      | Ok response =>
          let '(collected, out) :=
            read_records (raw_data_ response) (type_ w)
                         (records_ response) (result_ w) in
          (set_result w collected, out)
      | Throw e => (w, Throw e)
      | Fault => (w, Fault)
      end
  | Throw e => (w, Throw e)
  | Fault => (w, Fault)
  end.

Definition OnOK (w : DNSWorker) : delivery js_string :=
  CallbackResult (map String_New (result_ w)).

(** [Napi::AsyncWorker]: an exception leaving [Execute] is recorded with
    [SetError(e.what())], the C string of its message; on completion
    [OnOK] runs when the recorded text is empty and [OnError] otherwise. *)
Definition OnWorkComplete (w : DNSWorker) (error : string)
  : delivery js_string :=
  if Nat.eqb (String.length error) 0 then OnOK w else CallbackError error.

Definition Queue (w : DNSWorker) : delivery js_string :=
  match Execute w with
  | (w', Ok _) => OnWorkComplete w' EmptyString
  | (w', Throw e) => OnWorkComplete w' (what e)
  | (_, Fault) => Undefined
  end.

(** The exported [lookup(query, cls, type, cb)]: the two numbers are
    converted to [int] and cast to the enumerations. *)
Definition Lookup (query : string) (cls type : Z) : delivery js_string :=
  let cls := int32_of_number cls in
  let type := int32_of_number type in
  Queue {| result_ := []; name_ := query; cls_ := cls; type_ := type |}.

End Binding.

(** ** A resolver library over RFC 1035 messages

    One implementation of [Resolv], written after RFC 1035 and the BIND
    parser ([ns_parse.c], [ns_name.c]) that libresolv ships.  The network
    is a function from the question to the bytes of the answer or to an
    [h_errno] code.  It serves to run the binding on concrete messages;
    no general property depends on it. *)

Module Wire.

Definition obind {A B : Type} (c : option A) (k : A -> option B) : option B :=
  match c with
  | Some a => k a
  | None => None
  end.

Notation "x <~ c ;; k" := (obind c (fun x => k))
  (at level 61, c at next level, right associativity).

Definition EMSGSIZE : Z := 90.
Definition ENODEV : Z := 19.
Definition NS_MAXCDNAME : Z := 255.
Definition NS_MAXDNAME : N := 1025.

Definition sect_eqb (a b : ns_sect) : bool :=
  match a, b with
  | ns_s_qd, ns_s_qd | ns_s_an, ns_s_an
  | ns_s_ns, ns_s_ns | ns_s_ar, ns_s_ar => true
  | _, _ => false
  end.

Definition next_sect (s : ns_sect) : option ns_sect :=
  match s with
  | ns_s_qd => Some ns_s_an
  | ns_s_an => Some ns_s_ns
  | ns_s_ns => Some ns_s_ar
  | ns_s_ar => None
  end.

Definition peek (mem : list byte) (p : ptr) : option Z :=
  if p <? 0 then None
  else option_map (fun b => Z.of_N (u8 b)) (nth_error mem (Z.to_nat p)).

Fixpoint peek_range (mem : list byte) (p : ptr) (n : nat) : option (list byte) :=
  match n with
  | O => Some []
  | S n' =>
      if p <? 0 then None
      else b <~ nth_error mem (Z.to_nat p) ;;
           bs <~ peek_range mem (p + 1) n' ;;
           Some (b :: bs)
  end.

Definition get16 (mem : list byte) (p : ptr) : option Z :=
  hi <~ peek mem p ;;
  lo <~ peek mem (p + 1) ;;
  Some (Z.lor (Z.shiftl hi 8) lo).

Definition get32 (mem : list byte) (p : ptr) : option Z :=
  hi <~ get16 mem p ;;
  lo <~ get16 mem (p + 2) ;;
  Some (Z.lor (Z.shiftl hi 16) lo).

(** [ns_name_skip]: the position after the name at [cp]. *)
Fixpoint name_skip (fuel : nat) (mem : list byte) (eom cp : ptr) : option ptr :=
  match fuel with
  | O => None
  | S fuel' =>
      if eom <=? cp then (if eom <? cp then None else Some cp)
      else
        n <~ peek mem cp ;;
        let cp := cp + 1 in
        if n =? 0 then (if eom <? cp then None else Some cp)
        else if Z.land n 192 =? 0 then name_skip fuel' mem eom (cp + n)
        else if Z.land n 192 =? 192 then
          (if eom <? cp + 1 then None else Some (cp + 1))
        else None
  end.

Definition dn_skipname (mem : list byte) (eom p : ptr) : option Z :=
  q <~ name_skip (S (List.length mem)) mem eom p ;;
  Some (q - p).

(** [ns_skiprr]: the position after [count] records starting at [p]. *)
Fixpoint skiprr (mem : list byte) (eom p : ptr) (section : ns_sect)
  (count : nat) : option ptr :=
  match count with
  | O => if eom <? p then None else Some p
  | S count' =>
      b <~ dn_skipname mem eom p ;;
      let p := p + b + 2 + 2 in
      if sect_eqb section ns_s_qd then skiprr mem eom p section count'
      else if eom <? p + 4 + 2 then None
      else
        let p := p + 4 in
        rdlength <~ get16 mem p ;;
        skiprr mem eom (p + 2 + rdlength) section count'
  end.

Definition setsection (handle : ns_msg) (sect : option ns_sect) : ns_msg :=
  {| _msg := _msg handle; _eom := _eom handle; _counts := _counts handle;
     _sections := _sections handle; _sect := sect;
     _rrnum := match sect with Some _ => 0 | None => -1 end;
     _msg_ptr := match sect with
                 | Some s => _sections handle s
                 | None => -1
                 end |}.

Definition no_handle : ns_msg :=
  {| _msg := 0; _eom := 0; _counts := fun _ => 0%N; _sections := fun _ => -1;
     _sect := None; _rrnum := -1; _msg_ptr := -1 |}.

Definition no_rr : ns_rr :=
  {| rr_type := 0; rr_class := 0; ttl := 0; rdlength := 0; rdata := -1 |}.

(** The four sections in turn: where each starts, and where the last ends. *)
Definition section_starts (mem : list byte) (eom p : ptr)
  (qd an ns ar : Z) : option (ptr * ptr * ptr * ptr * ptr) :=
  let start (count : Z) (sect : ns_sect) (p : ptr) :=
    if count =? 0 then Some (-1, p)
    else q <~ skiprr mem eom p sect (Z.to_nat count) ;; Some (p, q) in
  s0 <~ start qd ns_s_qd p ;;
  s1 <~ start an ns_s_an (snd s0) ;;
  s2 <~ start ns ns_s_ns (snd s1) ;;
  s3 <~ start ar ns_s_ar (snd s2) ;;
  Some (fst s0, fst s1, fst s2, fst s3, snd s3).

Definition ns_initparse (mem : list byte) (msg : ptr) (msglen : N)
  : Z * ns_msg :=
  let eom := msg + Z.of_N msglen in
  let parsed :=
    if eom <? msg + 12 then None
    else
      qd <~ get16 mem (msg + 4) ;;
      an <~ get16 mem (msg + 6) ;;
      ns <~ get16 mem (msg + 8) ;;
      ar <~ get16 mem (msg + 10) ;;
      s <~ section_starts mem eom (msg + 12) qd an ns ar ;;
      let '(p0, p1, p2, p3, last) := s in
      if negb (last =? eom) then None
      else
        Some {| _msg := msg; _eom := eom;
                _counts := fun sect =>
                  Z.to_N match sect with
                         | ns_s_qd => qd | ns_s_an => an
                         | ns_s_ns => ns | ns_s_ar => ar
                         end;
                _sections := fun sect =>
                  match sect with
                  | ns_s_qd => p0 | ns_s_an => p1
                  | ns_s_ns => p2 | ns_s_ar => p3
                  end;
                _sect := None; _rrnum := -1; _msg_ptr := -1 |} in
  match parsed with
  | Some handle => (0, handle)
  | None => (-1, no_handle)
  end.

(** *** Names *)

(** [ns_name_unpack]: the labels of the name at [srcp], following
    compression pointers, and the length the name takes at [src].
    [room] is what is left of the 255-byte uncompressed form. *)
Fixpoint name_unpack (fuel : nat) (mem : list byte) (msg eom src srcp : ptr)
  (room checked len : Z) : option (list (list byte) * Z) :=
  match fuel with
  | O => None
  | S fuel' =>
      n <~ peek mem srcp ;;
      let srcp := srcp + 1 in
      if n =? 0 then Some ([], if len <? 0 then srcp - src else len)
      else if Z.land n 192 =? 0 then
        if (room <=? n + 1) || (eom <=? srcp + n) then None
        else
          label <~ peek_range mem srcp (Z.to_nat n) ;;
          rest <~ name_unpack fuel' mem msg eom src (srcp + n)
                              (room - (n + 1)) (checked + n + 1) len ;;
          Some (label :: fst rest, snd rest)
      else if Z.land n 192 =? 192 then
        if eom <=? srcp then None
        else
          lo <~ peek mem srcp ;;
          let len := if len <? 0 then srcp - src + 1 else len in
          let target := msg + Z.lor (Z.shiftl (Z.land n 63) 8) lo in
          if (target <? msg) || (eom <=? target) then None
          else if eom - msg <=? checked + 2 then None
          else name_unpack fuel' mem msg eom src target room (checked + 2) len
      else None
  end.

Definition special (c : Z) : bool :=
  (c =? 34) || (c =? 46) || (c =? 59) || (c =? 92) ||
  (c =? 40) || (c =? 41) || (c =? 64) || (c =? 36).

Definition printable (c : Z) : bool := (32 <? c) && (c <? 127).

Definition digit (d : Z) : ascii := ascii_of_N (Z.to_N (48 + d)).

(** One character of a label in presentation form. *)
Definition ntop_char (b : byte) : string :=
  let c := Z.of_N (u8 b) in
  if special c then String "\" (String (ascii_of_byte b) EmptyString)
  else if printable c then String (ascii_of_byte b) EmptyString
  else String "\" (String (digit (c / 100))
         (String (digit (c / 10 mod 10))
         (String (digit (c mod 10)) EmptyString))).

Definition ntop_label (label : list byte) : string :=
  String.concat EmptyString (map ntop_char label).

(** [ns_name_ntop]: labels joined by dots; the root name is a dot. *)
Definition name_ntop (labels : list (list byte)) : string :=
  match labels with
  | [] => "."
  | _ => String.concat "." (map ntop_label labels)
  end.

Definition nul_terminated (s : string) : string := s ++ String NUL EmptyString.

Definition dn_expand (mem : list byte) (msg eom src : ptr) (dstsiz : N)
  : Z * string :=
  let expanded :=
    if (src <? msg) || (eom <=? src) then None
    else
      u <~ name_unpack (S (List.length mem)) mem msg eom src src
                       NS_MAXCDNAME 0 (-1) ;;
      let text := name_ntop (fst u) in
      if (dstsiz <=? N.of_nat (String.length text))%N then None
      else Some (snd u, text) in
  match expanded with
  | None => (-1, EmptyString)
  | Some (n, text) =>
      (n, match text with
          | String "." rest => if 0 <? n then nul_terminated (String NUL rest)
                               else nul_terminated text
          | _ => nul_terminated text
          end)
  end.

Definition ns_parserr (mem : list byte) (handle : ns_msg) (section : ns_sect)
  (rrnum : Z) : Z * ns_msg * ns_rr * Z :=
  let same := match _sect handle with
              | Some s => sect_eqb s section
              | None => false
              end in
  let handle := if same then handle else setsection handle (Some section) in
  let rrnum := if rrnum =? -1 then _rrnum handle else rrnum in
  if (rrnum <? 0) || (Z.of_N (_counts handle section) <=? rrnum) then
    (-1, handle, no_rr, ENODEV)
  else
    let handle := if rrnum <? _rrnum handle
                  then setsection handle (Some section) else handle in
    let parsed :=
      p <~ (if _rrnum handle <? rrnum
            then skiprr mem (_eom handle) (_msg_ptr handle) section
                        (Z.to_nat (rrnum - _rrnum handle))
            else Some (_msg_ptr handle)) ;;
      let '(b, _) := dn_expand mem (_msg handle) (_eom handle) p NS_MAXDNAME in
      if b <? 0 then None
      else
        let p := p + b in
        if _eom handle <? p + 2 + 2 then None
        else
          type <~ get16 mem p ;;
          class <~ get16 mem (p + 2) ;;
          let p := p + 4 in
          if sect_eqb section ns_s_qd then
            Some (p, {| rr_type := Z.to_N type; rr_class := Z.to_N class;
                        ttl := 0; rdlength := 0; rdata := -1 |})
          else if _eom handle <? p + 4 + 2 then None
          else
            t <~ get32 mem p ;;
            len <~ get16 mem (p + 4) ;;
            let p := p + 6 in
            if _eom handle <? p + len then None
            else
              Some (p + len,
                    {| rr_type := Z.to_N type; rr_class := Z.to_N class;
                       ttl := Z.to_N t; rdlength := Z.to_N len;
                       rdata := p |}) in
    match parsed with
    | None => (-1, handle, no_rr, EMSGSIZE)
    | Some (p, rr) =>
        let moved :=
          {| _msg := _msg handle; _eom := _eom handle;
             _counts := _counts handle; _sections := _sections handle;
             _sect := _sect handle; _rrnum := rrnum + 1; _msg_ptr := p |} in
        (0,
         if Z.of_N (_counts handle section) <? rrnum + 1
         then setsection moved (next_sect section) else moved,
         rr, 0)
    end.

Definition strerror (errnum : Z) : string :=
  if errnum =? 0 then "Success"
  else if errnum =? ENODEV then "No such device"
  else if errnum =? EMSGSIZE then "Message too long"
  else "Unknown error " ++ to_string (Z.to_N errnum).

Definition hstrerror (err : Z) : string :=
  if err =? 0 then "Resolver Error 0 (no error)"
  else if err =? 1 then "Unknown host"
  else if err =? 2 then "Host name lookup failure"
  else if err =? 3 then "Unknown server error"
  else if err =? 4 then "No address associated with name"
  else "Unknown resolver error".

(** The answer of the network to a question: the message, or [h_errno]. *)
Definition network : Type := string -> Z -> Z -> list byte + Z.

Definition res_nsearch (net : network) (state : unit) (name : string)
  (cls type : Z) (anslen : N) : Z * list byte * Z :=
  match net (c_string name) cls type with
  | inl message =>
      let stored := firstn (N.to_nat anslen) message in
      (Z.of_nat (List.length stored), stored, 0)
  | inr h_errno => (-1, [], h_errno)
  end.

Definition resolv (net : network) : Resolv :=
  Build_Resolv unit (0, tt, 0) (res_nsearch net) ns_initparse ns_parserr
               dn_expand strerror hstrerror true.

(** The same library on a system whose resolver cannot be initialised. *)
Definition unconfigured (errno : Z) : Resolv :=
  Build_Resolv unit (-1, tt, errno) (res_nsearch (fun _ _ _ => inr 0))
               ns_initparse ns_parserr dn_expand strerror hstrerror true.

(** A network on which every question fails with [h_errno]. *)
Definition unreachable (h_errno : Z) : network := fun _ _ _ => inr h_errno.

End Wire.

(** ** JavaScript strings from UTF-8

    One implementation of [Napi], after the UTF-8 decoder of the WHATWG
    Encoding standard: a JavaScript string is its sequence of UTF-16 code
    units, and every ill-formed sequence becomes U+FFFD. *)

Module Utf8.

Definition replacement : Z := 65533.

(** A byte met when no sequence is open: the code units to emit, and the
    state after it (bytes still needed, code point so far, and the bounds
    for the next byte). *)
Definition lead (b : Z) : list Z * (Z * Z * Z * Z) :=
  if b <=? 127 then ([b], (0, 0, 128, 191))
  else if (194 <=? b) && (b <=? 223) then ([], (1, Z.land b 31, 128, 191))
  else if (224 <=? b) && (b <=? 239) then
    ([], (2, Z.land b 15,
          if b =? 224 then 160 else 128, if b =? 237 then 159 else 191))
  else if (240 <=? b) && (b <=? 244) then
    ([], (3, Z.land b 7,
          if b =? 240 then 144 else 128, if b =? 244 then 143 else 191))
  else ([replacement], (0, 0, 128, 191)).

(** A code point as UTF-16 code units. *)
Definition utf16 (cp : Z) : list Z :=
  if cp <? 65536 then [cp]
  else [55296 + Z.shiftr (cp - 65536) 10; 56320 + Z.land (cp - 65536) 1023].

Fixpoint decode (bs : list Z) (state : Z * Z * Z * Z) : list Z :=
  let '(needed, cp, lower, upper) := state in
  match bs with
  | [] => if needed =? 0 then [] else [replacement]
  | b :: rest =>
      if needed =? 0 then
        (fst (lead b) ++ decode rest (snd (lead b)))%list
      else if (lower <=? b) && (b <=? upper) then
        let cp := Z.lor (Z.shiftl cp 6) (Z.land b 63) in
        if needed =? 1 then (utf16 cp ++ decode rest (0, 0, 128, 191))%list
        else decode rest (needed - 1, cp, 128, 191)
      else
        (replacement :: fst (lead b) ++ decode rest (snd (lead b)))%list
  end.

Definition String_New (s : string) : list Z :=
  decode (map (fun a => Z.of_N (N_of_ascii a)) (list_ascii_of_string s))
         (0, 0, 128, 191).

End Utf8.

#[global] Instance utf8_strings : Napi :=
  {| js_string := list Z; String_New := Utf8.String_New |}.

(** ** Messages to run the binding on *)

Module Samples.

Definition bytes_of (s : string) : list byte :=
  map byte_of_ascii (list_ascii_of_string s).

(** Header: id, flags of a response, one question, [an] answers. *)
Definition header (an : byte) : list byte :=
  [x12; x34; x81; x80; x00; x01; x00; an; x00; x00; x00; x00].

(** The question [a.b], class IN, of the given type. *)
Definition question (type : byte) : list byte :=
  ([x01] ++ bytes_of "a" ++ [x01] ++ bytes_of "b" ++
   [x00; x00; type; x00; x01])%list.

(** An answer of class IN and TTL 60. *)
Definition answer_of (owner : list byte) (type : byte) (rdata : list byte)
  : list byte :=
  (owner ++ [x00; type; x00; x01; x00; x00; x00; x3c; x00;
             byte_of_ascii (ascii_of_nat (List.length rdata))] ++ rdata)%list.

(** An answer owned by the question's name (a pointer to offset 12). *)
Definition answer (type : byte) (rdata : list byte) : list byte :=
  answer_of [xc0; x0c] type rdata.

Definition svc_name : list byte :=
  ([x03] ++ bytes_of "svc" ++ [x07] ++ bytes_of "example" ++
   [x03] ++ bytes_of "com" ++ [x00])%list.

(** Priority 1, weight 2, port 80, then [svc.example.com] uncompressed. *)
Definition svc_rdata : list byte :=
  ([x00; x01; x00; x02; x00; x50] ++ svc_name)%list.

Definition reply (m : list byte) : Wire.network := fun _ _ _ => inl m.

Definition srv_message : list byte :=
  (header x01 ++ question x21 ++ answer x21 svc_rdata)%list.

(** Two SRV answers; the first has a payload of two bytes only. *)
Definition short_srv_message : list byte :=
  (header x02 ++ question x21 ++ answer x21 [x00; x01] ++
   answer x21 svc_rdata)%list.

(** One SRV answer of eight payload bytes whose name is a compression
    pointer to itself (offset 39). *)
Definition looping_srv_message : list byte :=
  (header x01 ++ question x21 ++
   answer x21 [x00; x01; x00; x02; x00; x50; xc0; x27])%list.

(** Two A answers, the second with a payload of three bytes. *)
Definition bad_a_message : list byte :=
  (header x02 ++ question x01 ++ answer x01 [x7f; x00; x00; x01] ++
   answer x01 [x0a; x00; x00])%list.

Definition a_message : list byte :=
  (header x02 ++ question x01 ++ answer x01 [x7f; x00; x00; x01] ++
   answer x01 [x0a; x00; x00; xff])%list.

(** An SRV message declaring two answers and carrying one. *)
Definition truncated_message : list byte :=
  (header x02 ++ question x21 ++ answer x21 svc_rdata)%list.

(** Two A answers; the owner name of the second is a compression pointer
    to itself (offset 37), which skipping accepts and expansion rejects. *)
Definition bad_owner_message : list byte :=
  (header x02 ++ question x01 ++ answer x01 [x7f; x00; x00; x01] ++
   answer_of [xc0; x25] x01 [x0a; x00; x00; xff])%list.

Definition empty_message : list byte := (header x00 ++ question x01)%list.

(** A TXT answer with two character strings, [AB] and [C]. *)
Definition txt_message : list byte :=
  (header x01 ++ question x10 ++ answer x10 [x02; x41; x42; x01; x43])%list.

(** 2001:db8::ab01 and the unspecified address, as payloads. *)
Definition ipv6_payload : list byte :=
  [x20; x01; x0d; xb8; x00; x00; x00; x00;
   x00; x00; x00; x00; x00; x00; xab; x01].

Definition ipv6_zero : list byte := repeat x00 16.

(** A record whose payload is the whole of [mem]. *)
Definition whole (mem : list byte) : ResourceRecord :=
  {| record_ := {| rr_type := 0; rr_class := 1; ttl := 0;
                   rdlength := N.of_nat (List.length mem); rdata := 0 |};
     start_ := 0; end_ := Z.of_nat (List.length mem); pos_ := 0 |}.

(** The record the parser finds at [rdata] with [rdlength] bytes in a
    message of [size] bytes. *)
Definition record_at (type : N) (data : ptr) (len : N) (size : Z) (pos : N)
  : ResourceRecord :=
  {| record_ := {| rr_type := type; rr_class := 1; ttl := 60;
                   rdlength := len; rdata := data |};
     start_ := 0; end_ := size; pos_ := pos |}.

(** The records the parser finds in the SRV messages above. *)
Definition srv_record : ResourceRecord := record_at 33 33 23 56 0.
Definition short_record : ResourceRecord := record_at 33 33 2 70 0.
Definition looping_record : ResourceRecord := record_at 33 33 8 41 0.

(** The handle the parser of [Wire] builds for a message, and the state of
    the constructor's loop after [i] records. *)
Definition parsed_handle (m : list byte) : ns_msg :=
  snd (Wire.ns_initparse m 0 (N.of_nat (List.length m))).

Definition loop_after (m : list byte) (i : nat)
  : ns_msg * list ResourceRecord :=
  match emplace_records (L := Wire.resolv (reply m)) m (parsed_handle m) 0 i []
  with
  | Ok ar => ar
  | _ => (Wire.no_handle, [])
  end.

(** The response the constructor builds from a message on [Wire]. *)
Definition parsed_response (m : list byte) : DNSReponse :=
  match DNSReponse_ctor (L := Wire.resolv (reply m)) "a.b" m with
  | Ok response => response
  | _ => {| raw_data_ := []; records_ := []; answer_ := Wire.no_handle |}
  end.

End Samples.

(** ** Vocabulary of the properties *)

Definition TXT_error : exception :=
  runtime_error "Invalid DNS TXT record received".

Definition A_error : exception :=
  runtime_error "Invalid DNS A record receive".

(** A printed octet: one to three decimal digits that read back as the
    value of the byte. *)
Definition octet_text (b : byte) (s : string) : Prop :=
  (1 <= String.length s <= 3)%nat /\
  all_chars is_digit s = true /\
  decimal_value s = Some (u8 b).

(** The big-endian 16-bit value of two bytes. *)
Definition be16 (hi lo : byte) : N := (256 * u8 hi + u8 lo)%N.

(** A printed group: four lowercase hexadecimal digits that read back as
    the big-endian value of the two bytes. *)
Definition group_textb (hi lo : byte) (g : string) : bool :=
  Nat.eqb (String.length g) 4 && all_chars is_lower_hex g &&
  match hex_value g with
  | Some v => (v =? be16 hi lo)%N
  | None => false
  end.

Definition group_text (hi lo : byte) (g : string) : Prop :=
  String.length g = 4%nat /\
  all_chars is_lower_hex g = true /\
  hex_value g = Some (be16 hi lo).

(** A check over all 256 bytes. *)
Definition forall_bytes (f : byte -> bool) : bool :=
  forallb (fun n => match Byte.of_nat n with
                    | Some b => f b
                    | None => true
                    end) (seq 0 256).

(** Exactly two lowercase hexadecimal digits. *)
Definition two_hexb (s : string) : bool :=
  match s with
  | String h (String l EmptyString) => is_lower_hex h && is_lower_hex l
  | _ => false
  end.

(** The C string held in a buffer: the characters before the first NUL. *)
Definition c_str (s : string) : option string :=
  option_map (fun k => substring 0 k s) (find NUL s).

(** [ntohs] after [memcpy] gives the big-endian value, checked on every
    pair of bytes. *)
Definition ntohs_ok (little_endian : bool) : bool :=
  forall_bytes (fun b0 => forall_bytes (fun b1 =>
    ntohs little_endian (uint16_of_bytes little_endian b0 b1)
    =? Z.of_N (be16 b0 b1))).

Definition SRV_error (pos : N) (cause : string) : exception :=
  runtime_error ("Incorrect result " ++ to_string pos ++ " of SRV answer: " ++
                 cause).

Definition InvalidResponse (search : string) : exception :=
  runtime_error ("Invalid DNS answer for " ++ dquote ++ search ++ dquote).

Definition InvalidRecord (pos : N) (cause : string) : exception :=
  runtime_error ("Invalid record " ++ to_string pos ++ " of DNS answer: " ++
                 cause).

(** The bytes of a string, one per character. *)
Definition bytes_of_string (s : string) : list byte :=
  map byte_of_ascii (list_ascii_of_string s).

(** The payload of a record lies inside the buffer. *)
Definition in_buffer (mem : list byte) (r : ResourceRecord) : Prop :=
  0 <= rdata (record_ r) /\
  rdata (record_ r) + Z.of_N (rdlength (record_ r))
  <= Z.of_nat (List.length mem).

(** Reading a printed address back: the text before the first [c] and the
    fields after it. *)
Fixpoint split_on (c : ascii) (s : string) : string * list string :=
  match s with
  | EmptyString => (EmptyString, [])
  | String a s' =>
      let '(h, t) := split_on c s' in
      if Ascii.eqb a c then (EmptyString, h :: t) else (String a h, t)
  end.

Definition fields (c : ascii) (s : string) : list string :=
  fst (split_on c s) :: snd (split_on c s).

Fixpoint all_some {A : Type} (l : list (option A)) : option (list A) :=
  match l with
  | [] => Some []
  | Some a :: l' => option_map (cons a) (all_some l')
  | None :: _ => None
  end.

(** The numbers a dotted-decimal text denotes. *)
Definition dotted_decimal (s : string) : option (list N) :=
  all_some (map decimal_value (fields "." s)).

(** The numbers a colon-separated hexadecimal text denotes. *)
Definition colon_hex (s : string) : option (list N) :=
  all_some (map hex_value (fields ":" s)).

Definition free_of (c : ascii) (s : string) : bool :=
  all_chars (fun a => negb (Ascii.eqb a c)) s.

(** The big-endian 16-bit values of consecutive byte pairs. *)
Fixpoint be16_pairs (ds : list byte) : list N :=
  match ds with
  | hi :: lo :: rest => be16 hi lo :: be16_pairs rest
  | _ => []
  end.

(** [dn_expand], called as [asSRV] calls it for the record, stores no more
    than the 8192 characters of the buffer it is given. *)
Definition expansion_fits {L : Resolv} (mem : list byte) (r : ResourceRecord)
  : Prop :=
  N.le (N.of_nat (String.length
          (snd (dn_expand mem (start_ r) (end_ r)
                          (rdata (record_ r) + sizeof_SrvHeader) 8192))))
       8192.

Definition InitError (cause : string) : exception :=
  runtime_error ("Could not perform DNS lookup, res_ninit() failed: " ++ cause).

Definition LookupError (name cause : string) : exception :=
  runtime_error ("Failed to look up " ++ dquote ++ name ++ dquote ++ ": " ++
                 cause).

(** * Properties *)

(** ** Outcomes and memory *)

Lemma bind_Ok {A B : Type} (c : result A) (k : A -> result B) (b : B) :
  bind c k = Ok b -> exists a, c = Ok a /\ k a = Ok b.
Proof.
  destruct c as [a | e |]; simpl; intros H; try discriminate.
  exists a; split; [reflexivity | exact H].
Qed.

Lemma throws_Throw {A : Type} (e : exception) : throws (@Throw A e).
Proof. exists e; reflexivity. Qed.

Lemma not_throws_Ok {A : Type} (a : A) : ~ throws (Ok a).
Proof. intros [e He]; discriminate. Qed.

Lemma load_range_cons mem p n b bs :
  load_range mem p (S n) = Ok (b :: bs) <->
  load mem p = Ok b /\ load_range mem (p + 1) n = Ok bs.
Proof.
  simpl; split.
  - intros H. apply bind_Ok in H as (b' & Hb & H).
    apply bind_Ok in H as (bs' & Hbs & H).
    inversion H; subst; split; assumption.
  - intros [Hb Hbs]. rewrite Hb; simpl. rewrite Hbs; reflexivity.
Qed.

Lemma load_range_length mem n : forall p l,
  load_range mem p n = Ok l -> List.length l = n.
Proof.
  induction n as [| n IH]; intros p l H.
  - inversion H; reflexivity.
  - destruct l as [| b bs].
    + simpl in H. apply bind_Ok in H as (b' & _ & H).
      apply bind_Ok in H as (bs' & _ & H). discriminate.
    + apply load_range_cons in H as [_ H]. simpl; f_equal; eauto.
Qed.

Lemma load_range_firstn mem k : forall p n l,
  load_range mem p n = Ok l -> (k <= n)%nat ->
  load_range mem p k = Ok (firstn k l).
Proof.
  induction k as [| k IH]; intros p n l H Hk; [reflexivity |].
  destruct n as [| n]; [lia |].
  destruct l as [| b bs].
  - apply load_range_length in H; discriminate.
  - apply load_range_cons in H as [Hb Hbs].
    change (firstn (S k) (b :: bs)) with (b :: firstn k bs).
    apply load_range_cons; split; [exact Hb |].
    apply (IH _ n); [exact Hbs | lia].
Qed.

Lemma load_in_bounds mem p :
  0 <= p < Z.of_nat (List.length mem) -> exists b, load mem p = Ok b.
Proof.
  intros [Hlo Hhi]; unfold load.
  destruct (Z.ltb_spec p 0) as [| _]; [lia |].
  destruct (nth_error mem (Z.to_nat p)) as [b |] eqn:E; [eauto |].
  apply nth_error_None in E; lia.
Qed.

Lemma load_range_in_bounds mem n : forall p,
  0 <= p -> p + Z.of_nat n <= Z.of_nat (List.length mem) ->
  exists l, load_range mem p n = Ok l.
Proof.
  induction n as [| n IH]; intros p Hlo Hhi; [exists []; reflexivity |].
  destruct (load_in_bounds mem p) as [b Hb]; [lia |].
  destruct (IH (p + 1)) as [bs Hbs]; [lia | lia |].
  exists (b :: bs); apply load_range_cons; split; assumption.
Qed.

(** A payload that lies in the buffer starts with the byte at [rdata] and
    continues with the bytes after it. *)
Lemma payload_cons mem r d0 rest :
  payload mem r = Ok (d0 :: rest) ->
  load mem (rdata (record_ r)) = Ok d0 /\
  load_range mem (rdata (record_ r) + 1) (List.length rest) = Ok rest.
Proof.
  unfold payload, rawData, ns_rr_rdata, ns_rr_rdlen; simpl; intros H.
  pose proof (load_range_length _ _ _ _ H) as Hlen; simpl in Hlen.
  rewrite <- Hlen in H. apply load_range_cons in H. exact H.
Qed.

Lemma payload_length mem r p :
  payload mem r = Ok p -> N.of_nat (List.length p) = rdlength (record_ r).
Proof.
  unfold payload, rawData, ns_rr_rdata, ns_rr_rdlen; simpl; intros H.
  apply load_range_length in H. lia.
Qed.

(** ** TXT and CNAME *)

(** What [asTXT] computes, as a function of the payload alone. *)
Lemma asTXT_payload mem r p :
  payload mem r = Ok p ->
  asTXT mem r =
  match p with
  | [] => Throw TXT_error
  | n :: rest =>
      if (N.of_nat (List.length rest) <? u8 n)%N then Throw TXT_error
      else Ok (string_of_bytes (firstn (N.to_nat (u8 n)) rest))
  end.
Proof.
  intros Hp. pose proof (payload_length _ _ _ Hp) as Hlen.
  unfold asTXT, rawData, ns_rr_rdata, ns_rr_rdlen.
  destruct p as [| n rest]; simpl in Hlen.
  - rewrite <- Hlen; reflexivity.
  - destruct (N.eqb_spec (rdlength (record_ r)) 0) as [E | _]; [lia |].
    apply payload_cons in Hp as [Hd0 Hrest]. rewrite Hd0; simpl.
    replace (rdlength (record_ r) - 1)%N with (N.of_nat (List.length rest)) by lia.
    destruct (N.ltb_spec (N.of_nat (List.length rest)) (u8 n)) as [| Hle];
      [reflexivity |].
    rewrite (load_range_firstn _ _ _ _ _ Hrest) by lia. reflexivity.
Qed.

(** C3.  TXT decoding of a payload fails, with the TXT error, exactly when
    the payload is empty or its first byte N exceeds the payload length
    minus one; otherwise it returns the N bytes after the length byte.  The
    result depends on the payload only, so decoding the same payload again
    gives the same output, and CNAME decoding is the same function. *)
Theorem asTXT_length_prefixed mem r p (Hp : payload mem r = Ok p) :
  (throws (asTXT mem r) <->
   p = [] \/
   exists n rest, p = n :: rest /\ (N.of_nat (List.length p) - 1 < u8 n)%N) /\
  (throws (asTXT mem r) -> asTXT mem r = Throw TXT_error) /\
  (forall n rest, p = n :: rest ->
     (u8 n <= N.of_nat (List.length p) - 1)%N ->
     asTXT mem r = Ok (string_of_bytes (firstn (N.to_nat (u8 n)) rest))) /\
  (forall mem' r', payload mem' r' = Ok p -> asTXT mem' r' = asTXT mem r) /\
  (forall mem' r', asCNAME mem' r' = asTXT mem' r').
Proof.
  pose proof (asTXT_payload _ _ _ Hp) as E.
  repeat split.
  - intros Ht. destruct p as [| n rest]; [left; reflexivity | right].
    exists n, rest; split; [reflexivity |].
    change (List.length (n :: rest)) with (S (List.length rest)).
    destruct (N.ltb_spec (N.of_nat (List.length rest)) (u8 n)) as [Hlt | Hle].
    + lia.
    + rewrite E in Ht. exfalso; exact (not_throws_Ok _ Ht).
  - intros [-> | (n & rest & -> & Hlt)]; rewrite E.
    + apply throws_Throw.
    + change (List.length (n :: rest)) with (S (List.length rest)) in Hlt.
      destruct (N.ltb_spec (N.of_nat (List.length rest)) (u8 n)) as [_ | Hle];
        [apply throws_Throw | lia].
  - intros Ht. rewrite E in *. destruct p as [| n rest]; [reflexivity |].
    destruct (N.of_nat (List.length rest) <? u8 n)%N; [reflexivity |].
    exfalso; exact (not_throws_Ok _ Ht).
  - intros n rest -> Hle. rewrite E.
    change (List.length (n :: rest)) with (S (List.length rest)) in Hle.
    destruct (N.ltb_spec (N.of_nat (List.length rest)) (u8 n)) as [Hlt | _];
      [lia | reflexivity].
  - intros mem' r' Hp'. rewrite E. exact (asTXT_payload _ _ _ Hp').
Qed.

Lemma asTXT_length_prefixed_witness :
  asTXT [x02; x41; x42] (Samples.whole [x02; x41; x42]) = Ok "AB" /\
  asTXT [x03; x41; x42] (Samples.whole [x03; x41; x42]) = Throw TXT_error.
Proof.
  split.
  - destruct (asTXT_length_prefixed [x02; x41; x42]
                (Samples.whole [x02; x41; x42]) [x02; x41; x42] eq_refl)
      as (_ & _ & H & _).
    apply (H x02 [x41; x42] eq_refl). simpl; lia.
  - destruct (asTXT_length_prefixed [x03; x41; x42]
                (Samples.whole [x03; x41; x42]) [x03; x41; x42] eq_refl)
      as (H1 & H2 & _).
    apply H2, H1. right. exists x03, [x41; x42].
    split; [reflexivity | simpl; lia].
Defined.

(** C9.  When the length byte N of a TXT or CNAME payload is below the
    payload length minus one, decoding succeeds with the N bytes after the
    length byte; bytes are left over and none of them matters: any other
    trailer gives the same output.  A payload of several character strings
    yields the first string. *)
Theorem asTXT_ignores_trailing mem r n tail
  (Hp : payload mem r = Ok (n :: tail))
  (Hlt : (u8 n < N.of_nat (List.length (n :: tail)) - 1)%N) :
  let text := firstn (N.to_nat (u8 n)) tail in
  asTXT mem r = Ok (string_of_bytes text) /\
  asCNAME mem r = Ok (string_of_bytes text) /\
  skipn (N.to_nat (u8 n)) tail <> [] /\
  (forall mem' r' trailer,
     payload mem' r' = Ok (n :: text ++ trailer)%list ->
     asTXT mem' r' = asTXT mem r) /\
  (forall first n2 second,
     tail = (first ++ n2 :: second)%list ->
     List.length first = N.to_nat (u8 n) ->
     asTXT mem r = Ok (string_of_bytes first)).
Proof.
  intros text.
  change (List.length (n :: tail)) with (S (List.length tail)) in Hlt.
  assert (E : asTXT mem r = Ok (string_of_bytes text)).
  { rewrite (asTXT_payload _ _ _ Hp).
    destruct (N.ltb_spec (N.of_nat (List.length tail)) (u8 n)) as [| _];
      [lia | reflexivity]. }
  repeat split.
  - exact E.
  - exact E.
  - intros Hs. apply (f_equal (@List.length byte)) in Hs.
    rewrite length_skipn in Hs. simpl in Hs. lia.
  - intros mem' r' trailer Hp'. rewrite E, (asTXT_payload _ _ _ Hp').
    assert (Hlen : List.length text = N.to_nat (u8 n)).
    { unfold text. rewrite length_firstn. lia. }
    destruct (N.ltb_spec (N.of_nat (List.length (text ++ trailer)%list)) (u8 n))
      as [Hlt' | _].
    + rewrite length_app in Hlt'. lia.
    + rewrite <- Hlen, firstn_app, Nat.sub_diag, firstn_all. simpl.
      rewrite app_nil_r. reflexivity.
  - intros first n2 second -> Hfirst. rewrite E. unfold text.
    rewrite <- Hfirst, firstn_app, Nat.sub_diag, firstn_all. simpl.
    rewrite app_nil_r. reflexivity.
Qed.

Lemma asTXT_ignores_trailing_witness :
  asTXT [x02; x41; x42; x01; x43] (Samples.whole [x02; x41; x42; x01; x43])
  = Ok "AB".
Proof.
  refine (proj1 (asTXT_ignores_trailing [x02; x41; x42; x01; x43]
                   (Samples.whole [x02; x41; x42; x01; x43])
                   x02 [x41; x42; x01; x43] eq_refl _)).
  simpl; lia.
Defined.

(** ** A *)

Lemma load_range_load mem n : forall p l i b,
  load_range mem p n = Ok l -> nth_error l i = Some b ->
  load mem (p + Z.of_nat i) = Ok b.
Proof.
  induction n as [| n IH]; intros p l i b H Hi.
  - inversion H; subst. destruct i; discriminate.
  - destruct l as [| b0 bs]; [apply load_range_length in H; discriminate |].
    apply load_range_cons in H as [Hb Hbs].
    destruct i as [| i]; simpl in Hi.
    + inversion Hi; subst. rewrite Z.add_0_r. exact Hb.
    + replace (p + Z.of_nat (S i)) with (p + 1 + Z.of_nat i) by lia. eauto.
Qed.

Lemma substring_all s : forall n,
  (String.length s <= n)%nat -> substring 0 n s = s.
Proof.
  induction s as [| c s IH]; intros n Hn.
  - destruct n; reflexivity.
  - destruct n as [| n]; simpl in *; [lia |]. rewrite IH by lia. reflexivity.
Qed.

Lemma length_append (s t : string) :
  String.length (s ++ t) = (String.length s + String.length t)%nat.
Proof. induction s as [| c s IH]; simpl; [reflexivity | rewrite IH; reflexivity]. Qed.

Lemma append_assoc (s t u : string) : ((s ++ t) ++ u = s ++ (t ++ u))%string.
Proof. induction s as [| c s IH]; simpl; [reflexivity | rewrite IH; reflexivity]. Qed.

Lemma to_string_octet (b : byte) : octet_text b (to_string (u8 b)).
Proof.
  destruct b; vm_compute; (split; [split |]); auto using le_n, le_S.
Qed.

Lemma asA_wrong_length mem r :
  rdlength (record_ r) <> 4%N -> asA mem r = Throw A_error.
Proof.
  intros H. unfold asA, rawData, ns_rr_rdlen.
  destruct (N.eqb_spec (rdlength (record_ r)) 4) as [E | _];
    [contradiction | reflexivity].
Qed.

Lemma asA_four mem r a b c d :
  payload mem r = Ok [a; b; c; d] ->
  asA mem r = Ok (to_string (u8 a) ++ "." ++ to_string (u8 b) ++ "." ++
                  to_string (u8 c) ++ "." ++ to_string (u8 d)).
Proof.
  intros Hp. pose proof (payload_length _ _ _ Hp) as Hlen. simpl in Hlen.
  unfold payload, rawData, ns_rr_rdata, ns_rr_rdlen in Hp; simpl in Hp.
  unfold asA, rawData, ns_rr_rdata, ns_rr_rdlen. rewrite <- Hlen. simpl negb.
  cbv iota.
  pose proof (load_range_load _ _ _ _ 0%nat a Hp eq_refl) as H0.
  pose proof (load_range_load _ _ _ _ 1%nat b Hp eq_refl) as H1.
  pose proof (load_range_load _ _ _ _ 2%nat c Hp eq_refl) as H2.
  pose proof (load_range_load _ _ _ _ 3%nat d Hp eq_refl) as H3.
  simpl Z.of_nat in *. rewrite Z.add_0_r in H0.
  rewrite H0, H1, H2, H3. simpl bind. f_equal.
  unfold snprintf. apply substring_all.
  destruct (to_string_octet a) as ((_ & Ha) & _).
  destruct (to_string_octet b) as ((_ & Hb) & _).
  destruct (to_string_octet c) as ((_ & Hc) & _).
  destruct (to_string_octet d) as ((_ & Hd) & _).
  rewrite !length_append. simpl String.length. simpl Nat.sub. lia.
Qed.

(** C4.  A decoding of a payload fails, with the A error, exactly when the
    payload is not 4 bytes long; on 4 bytes it returns four numbers joined
    by periods, each of one to three decimal digits whose value is the
    corresponding byte. *)
Theorem asA_dotted_decimal mem r p (Hp : payload mem r = Ok p) :
  (throws (asA mem r) <-> List.length p <> 4%nat) /\
  (throws (asA mem r) -> asA mem r = Throw A_error) /\
  (forall a b c d, p = [a; b; c; d] ->
     exists sa sb sc sd,
       asA mem r = Ok (sa ++ "." ++ sb ++ "." ++ sc ++ "." ++ sd) /\
       octet_text a sa /\ octet_text b sb /\
       octet_text c sc /\ octet_text d sd).
Proof.
  pose proof (payload_length _ _ _ Hp) as Hlen.
  assert (Hfour : List.length p = 4%nat ->
                  exists a b c d, p = [a; b; c; d]).
  { destruct p as [| a [| b [| c [| d [| e p]]]]]; try discriminate.
    intros _. exists a, b, c, d; reflexivity. }
  repeat split.
  - intros Ht Hl. destruct (Hfour Hl) as (a & b & c & d & ->).
    rewrite (asA_four _ _ _ _ _ _ Hp) in Ht. exact (not_throws_Ok _ Ht).
  - intros Hl. rewrite asA_wrong_length; [apply throws_Throw | lia].
  - intros Ht.
    destruct (Nat.eq_dec (List.length p) 4) as [Hl | Hl].
    + destruct (Hfour Hl) as (a & b & c & d & ->).
      rewrite (asA_four _ _ _ _ _ _ Hp) in Ht.
      exfalso; exact (not_throws_Ok _ Ht).
    + apply asA_wrong_length. lia.
  - intros a b c d ->.
    exists (to_string (u8 a)), (to_string (u8 b)),
           (to_string (u8 c)), (to_string (u8 d)).
    split; [exact (asA_four _ _ _ _ _ _ Hp) |].
    repeat split; apply to_string_octet.
Qed.

Lemma asA_dotted_decimal_witness :
  throws (asA [x0a; x00; x00] (Samples.whole [x0a; x00; x00])) /\
  exists sa sb sc sd,
    asA [xc0; xa8; x00; xff] (Samples.whole [xc0; xa8; x00; xff])
    = Ok (sa ++ "." ++ sb ++ "." ++ sc ++ "." ++ sd) /\
    octet_text xc0 sa /\ octet_text xa8 sb /\
    octet_text x00 sc /\ octet_text xff sd.
Proof.
  split.
  - apply (asA_dotted_decimal [x0a; x00; x00]
             (Samples.whole [x0a; x00; x00]) [x0a; x00; x00] eq_refl).
    simpl; lia.
  - apply (asA_dotted_decimal [xc0; xa8; x00; xff]
             (Samples.whole [xc0; xa8; x00; xff]) [xc0; xa8; x00; xff] eq_refl).
    reflexivity.
Defined.

Example asA_192_168_0_255 :
  asA [xc0; xa8; x00; xff] (Samples.whole [xc0; xa8; x00; xff])
  = Ok "192.168.0.255".
Proof. reflexivity. Qed.

(** ** AAAA *)

Lemma forall_bytes_spec (f : byte -> bool) :
  forall_bytes f = true -> forall b, f b = true.
Proof.
  unfold forall_bytes; intros H b. rewrite forallb_forall in H.
  specialize (H (Byte.to_nat b)). rewrite Byte.of_to_nat in H. apply H.
  apply in_seq. pose proof (Byte.to_nat_bounded b). lia.
Qed.

Lemma group_textb_spec hi lo g :
  group_textb hi lo g = true -> group_text hi lo g.
Proof.
  unfold group_textb, group_text; intros H.
  apply andb_prop in H as [H Hv]. apply andb_prop in H as [Hl Hc].
  apply Nat.eqb_eq in Hl. repeat split; [exact Hl | exact Hc |].
  destruct (hex_value g) as [v |]; [| discriminate].
  apply N.eqb_eq in Hv. congruence.
Qed.

Lemma fmt_group hi lo :
  group_text hi lo (fmt_02x (u8 hi) ++ fmt_02x (u8 lo)).
Proof.
  apply group_textb_spec.
  refine (forall_bytes_spec
            (fun lo => group_textb hi lo (fmt_02x (u8 hi) ++ fmt_02x (u8 lo)))
            _ lo).
  refine (forall_bytes_spec
            (fun hi => forall_bytes (fun lo =>
               group_textb hi lo (fmt_02x (u8 hi) ++ fmt_02x (u8 lo))))
            _ hi).
  vm_compute. reflexivity.
Qed.

(** [%02x] of a byte is exactly two lowercase hexadecimal digits. *)
Lemma fmt_02x_two (b : byte) :
  exists h l, fmt_02x (u8 b) = String h (String l EmptyString) /\
              is_lower_hex h = true /\ is_lower_hex l = true.
Proof.
  assert (H : two_hexb (fmt_02x (u8 b)) = true).
  { refine (forall_bytes_spec (fun b => two_hexb (fmt_02x (u8 b))) _ b).
    vm_compute. reflexivity. }
  destruct (fmt_02x (u8 b)) as [| h [| l [| ? ?]]]; try discriminate.
  apply andb_prop in H as [Hh Hl]. exists h, l. repeat split; assumption.
Qed.

Lemma colon_not_hex c : is_lower_hex c = true -> Ascii.eqb ":" c = false.
Proof.
  intros H. apply Ascii.eqb_neq. intros <-. discriminate.
Qed.

Lemma asAAAA_wrong_length mem r :
  rdlength (record_ r) <> 16%N -> asAAAA mem r = Throw A_error.
Proof.
  intros H. unfold asAAAA, rawData, ns_rr_rdlen.
  destruct (N.eqb_spec (rdlength (record_ r)) 16) as [E | _];
    [contradiction | reflexivity].
Qed.

Lemma sixteen (p : list byte) :
  List.length p = 16%nat ->
  exists b0 b1 b2 b3 b4 b5 b6 b7 b8 b9 b10 b11 b12 b13 b14 b15,
    p = [b0; b1; b2; b3; b4; b5; b6; b7; b8; b9; b10; b11; b12; b13; b14; b15].
Proof.
  intros H.
  do 16 (destruct p as [| ? p]; [discriminate |]).
  destruct p; [| discriminate]. repeat eexists.
Qed.

(** The text of eight groups joined by colons: 39 characters, no two
    colons in a row. *)
Lemma groups_shape (p : list byte) :
  List.length p = 16%nat ->
  String.length (String.concat ":" (fmt_groups p)) = 39%nat /\
  occurs "::" (String.concat ":" (fmt_groups p)) = false.
Proof.
  intros H. destruct (sixteen p H) as
    (b0 & b1 & b2 & b3 & b4 & b5 & b6 & b7 & b8 & b9 & b10 & b11 & b12 &
     b13 & b14 & b15 & ->).
  cbn [fmt_groups String.concat].
  destruct (fmt_02x_two b0) as (? & ? & -> & ?%colon_not_hex & ?%colon_not_hex).
  destruct (fmt_02x_two b1) as (? & ? & -> & ?%colon_not_hex & ?%colon_not_hex).
  destruct (fmt_02x_two b2) as (? & ? & -> & ?%colon_not_hex & ?%colon_not_hex).
  destruct (fmt_02x_two b3) as (? & ? & -> & ?%colon_not_hex & ?%colon_not_hex).
  destruct (fmt_02x_two b4) as (? & ? & -> & ?%colon_not_hex & ?%colon_not_hex).
  destruct (fmt_02x_two b5) as (? & ? & -> & ?%colon_not_hex & ?%colon_not_hex).
  destruct (fmt_02x_two b6) as (? & ? & -> & ?%colon_not_hex & ?%colon_not_hex).
  destruct (fmt_02x_two b7) as (? & ? & -> & ?%colon_not_hex & ?%colon_not_hex).
  destruct (fmt_02x_two b8) as (? & ? & -> & ?%colon_not_hex & ?%colon_not_hex).
  destruct (fmt_02x_two b9) as (? & ? & -> & ?%colon_not_hex & ?%colon_not_hex).
  destruct (fmt_02x_two b10) as (? & ? & -> & ?%colon_not_hex & ?%colon_not_hex).
  destruct (fmt_02x_two b11) as (? & ? & -> & ?%colon_not_hex & ?%colon_not_hex).
  destruct (fmt_02x_two b12) as (? & ? & -> & ?%colon_not_hex & ?%colon_not_hex).
  destruct (fmt_02x_two b13) as (? & ? & -> & ?%colon_not_hex & ?%colon_not_hex).
  destruct (fmt_02x_two b14) as (? & ? & -> & ?%colon_not_hex & ?%colon_not_hex).
  destruct (fmt_02x_two b15) as (? & ? & -> & ?%colon_not_hex & ?%colon_not_hex).
  split; [reflexivity |].
  cbn [occurs starts_with append].
  repeat match goal with
         | E : Ascii.eqb ":" ?c = false |- _ => rewrite !E; clear E
         end.
  reflexivity.
Qed.

Lemma asAAAA_sixteen mem r p :
  payload mem r = Ok p -> List.length p = 16%nat ->
  asAAAA mem r = Ok (String.concat ":" (fmt_groups p)).
Proof.
  intros Hp H16. pose proof (payload_length _ _ _ Hp) as Hlen.
  unfold payload, rawData, ns_rr_rdata, ns_rr_rdlen in Hp; simpl in Hp.
  unfold asAAAA, rawData, ns_rr_rdata, ns_rr_rdlen.
  rewrite <- Hlen, H16 in *. simpl negb. cbv iota.
  change (N.to_nat (N.of_nat 16)) with 16%nat in Hp. rewrite Hp.
  cbn [bind]. f_equal. unfold snprintf. apply substring_all.
  rewrite (proj1 (groups_shape p H16)). simpl. lia.
Qed.

Lemma fmt_groups_nth : forall i (p : list byte) hi lo g,
  nth_error p (2 * i) = Some hi -> nth_error p (2 * i + 1) = Some lo ->
  nth_error (fmt_groups p) i = Some g ->
  g = fmt_02x (u8 hi) ++ fmt_02x (u8 lo).
Proof.
  induction i as [| i IH]; intros p hi lo g Hhi Hlo Hg.
  - destruct p as [| a [| b rest]]; simpl in *; congruence.
  - replace (2 * S i)%nat with (S (S (2 * i))) in Hhi by lia.
    replace (2 * S i + 1)%nat with (S (S (2 * i + 1))) in Hlo by lia.
    destruct p as [| a [| b rest]]; simpl in Hhi, Hlo, Hg; try discriminate.
    eauto.
Qed.

Lemma fmt_groups_length (p : list byte) :
  List.length p = 16%nat -> List.length (fmt_groups p) = 8%nat.
Proof.
  intros H. destruct (sixteen p H) as
    (b0 & b1 & b2 & b3 & b4 & b5 & b6 & b7 & b8 & b9 & b10 & b11 & b12 &
     b13 & b14 & b15 & ->).
  reflexivity.
Qed.

(** C5.  AAAA decoding of a payload fails exactly when the payload is not
    16 bytes long; on 16 bytes it returns eight groups joined by colons,
    the i-th being four lowercase hexadecimal digits whose value is the
    big-endian 16-bit number of bytes 2i and 2i+1.  Nothing is elided: the
    text is 39 characters long and never has two colons in a row, also for
    the all-zero address. *)
Theorem asAAAA_eight_groups mem r p (Hp : payload mem r = Ok p) :
  (throws (asAAAA mem r) <-> List.length p <> 16%nat) /\
  (List.length p = 16%nat ->
   exists groups,
     asAAAA mem r = Ok (String.concat ":" groups) /\
     List.length groups = 8%nat /\
     (forall i hi lo g,
        nth_error p (2 * i) = Some hi -> nth_error p (2 * i + 1) = Some lo ->
        nth_error groups i = Some g -> group_text hi lo g) /\
     String.length (String.concat ":" groups) = 39%nat /\
     occurs "::" (String.concat ":" groups) = false).
Proof.
  pose proof (payload_length _ _ _ Hp) as Hlen.
  repeat split.
  - intros Ht Hl. rewrite (asAAAA_sixteen _ _ _ Hp Hl) in Ht.
    exact (not_throws_Ok _ Ht).
  - intros Hl. rewrite asAAAA_wrong_length; [apply throws_Throw | lia].
  - intros Hl. exists (fmt_groups p).
    split; [exact (asAAAA_sixteen _ _ _ Hp Hl) |].
    split; [exact (fmt_groups_length _ Hl) |].
    split; [| exact (groups_shape _ Hl)].
    intros i hi lo g Hhi Hlo Hg.
    rewrite (fmt_groups_nth _ _ _ _ _ Hhi Hlo Hg). apply fmt_group.
Qed.

Lemma asAAAA_eight_groups_witness :
  throws (asAAAA [x7f; x00; x00; x01] (Samples.whole [x7f; x00; x00; x01])) /\
  exists groups,
    asAAAA Samples.ipv6_payload (Samples.whole Samples.ipv6_payload)
    = Ok (String.concat ":" groups) /\
    List.length groups = 8%nat /\
    (forall i hi lo g,
       nth_error Samples.ipv6_payload (2 * i) = Some hi ->
       nth_error Samples.ipv6_payload (2 * i + 1) = Some lo ->
       nth_error groups i = Some g -> group_text hi lo g) /\
    String.length (String.concat ":" groups) = 39%nat /\
    occurs "::" (String.concat ":" groups) = false.
Proof.
  split.
  - apply (asAAAA_eight_groups [x7f; x00; x00; x01]
             (Samples.whole [x7f; x00; x00; x01]) [x7f; x00; x00; x01] eq_refl).
    simpl; lia.
  - exact (proj2 (asAAAA_eight_groups Samples.ipv6_payload
                    (Samples.whole Samples.ipv6_payload)
                    Samples.ipv6_payload eq_refl) eq_refl).
Defined.

Example asAAAA_2001_db8 :
  asAAAA Samples.ipv6_payload (Samples.whole Samples.ipv6_payload)
  = Ok "2001:0db8:0000:0000:0000:0000:0000:ab01".
Proof. reflexivity. Qed.

Example asAAAA_unspecified :
  asAAAA Samples.ipv6_zero (Samples.whole Samples.ipv6_zero)
  = Ok "0000:0000:0000:0000:0000:0000:0000:0000".
Proof. reflexivity. Qed.

(** C10.  When the payload of a record decoded as AAAA is not 16 bytes
    long, the exception text is "Invalid DNS A record receive", the very
    text the A decoder raises on a payload that is not 4 bytes long; it
    does not contain "AAAA". *)
Theorem asAAAA_error_names_A mem r
  (Hlen : ns_rr_rdlen (record_ r) <> 16%N) :
  asAAAA mem r = Throw (runtime_error "Invalid DNS A record receive") /\
  (forall mem' r', ns_rr_rdlen (record_ r') <> 4%N ->
     asA mem' r' = asAAAA mem r) /\
  (forall e, asAAAA mem r = Throw e ->
     what e = "Invalid DNS A record receive" /\
     occurs "AAAA" (what e) = false).
Proof.
  pose proof (asAAAA_wrong_length mem r Hlen) as E.
  split; [exact E |]. split.
  - intros mem' r' H4. rewrite E. apply asA_wrong_length. exact H4.
  - intros e He. rewrite E in He. inversion He; subst. split; reflexivity.
Qed.

Lemma asAAAA_error_names_A_witness :
  asAAAA [x7f; x00; x00; x01] (Samples.whole [x7f; x00; x00; x01])
  = Throw (runtime_error "Invalid DNS A record receive").
Proof.
  refine (proj1 (asAAAA_error_names_A [x7f; x00; x00; x01]
                   (Samples.whole [x7f; x00; x00; x01]) _)).
  simpl; lia.
Defined.

(** ** SRV *)

Lemma ntohs_be le b0 b1 :
  ntohs le (uint16_of_bytes le b0 b1) = Z.of_N (be16 b0 b1).
Proof.
  apply Z.eqb_eq.
  refine (forall_bytes_spec
            (fun b1 => ntohs le (uint16_of_bytes le b0 b1)
                       =? Z.of_N (be16 b0 b1)) _ b1).
  refine (forall_bytes_spec
            (fun b0 => forall_bytes (fun b1 =>
               ntohs le (uint16_of_bytes le b0 b1) =? Z.of_N (be16 b0 b1)))
            _ b0).
  change (ntohs_ok le = true). destruct le; vm_compute; reflexivity.
Qed.

Lemma string_fill_length n c : String.length (string_fill n c) = n.
Proof. induction n as [| n IH]; simpl; [reflexivity | rewrite IH; reflexivity]. Qed.

Lemma find_lt c s : forall k, find c s = Some k -> (k < String.length s)%nat.
Proof.
  induction s as [| a s IH]; simpl; intros k H; [discriminate |].
  destruct (Ascii.eqb a c).
  - inversion H; lia.
  - destruct (find c s) as [j |]; [| discriminate].
    inversion H; subst. specialize (IH j eq_refl). lia.
Qed.

Lemma find_append c s t : forall k,
  find c s = Some k -> find c (s ++ t) = Some k.
Proof.
  induction s as [| a s IH]; simpl; intros k H; [discriminate |].
  destruct (Ascii.eqb a c); [exact H |].
  destruct (find c s) as [j |]; [| discriminate].
  rewrite (IH j eq_refl). exact H.
Qed.

Lemma substring_append s t : forall k,
  (k <= String.length s)%nat -> substring 0 k (s ++ t) = substring 0 k s.
Proof.
  induction s as [| a s IH]; intros k Hk; simpl in *.
  - replace k with 0%nat by lia. destruct t; reflexivity.
  - destruct k as [| k]; [reflexivity |]. rewrite IH by lia. reflexivity.
Qed.

(** Storing a C string in a buffer that has room for it leaves that
    C string in the buffer. *)
Lemma c_str_store buf stored name :
  (String.length stored <= String.length buf)%nat ->
  c_str stored = Some name ->
  exists buf', store_string buf stored = Ok buf' /\ c_str buf' = Some name.
Proof.
  intros Hlen Hc. unfold store_string.
  destruct (Nat.ltb_spec (String.length buf) (String.length stored)); [lia |].
  eexists; split; [reflexivity |].
  unfold c_str in *. destruct (find NUL stored) as [k |] eqn:Ek; [| discriminate].
  rewrite (find_append _ _ _ _ Ek). simpl in *.
  rewrite substring_append; [exact Hc |].
  apply find_lt in Ek. lia.
Qed.

Lemma six (l : list byte) :
  List.length l = 6%nat -> exists a b c d e f, l = [a; b; c; d; e; f].
Proof.
  intros H. do 6 (destruct l as [| ? l]; [discriminate |]).
  destruct l; [| discriminate]. repeat eexists.
Qed.

Section Decoder.

Context {L : Resolv}.

Lemma asSRV_header_check mem r :
  rdata (record_ r) < start_ r \/ end_ r < rdata (record_ r) + 6 ->
  asSRV mem r = Throw (SRV_error (pos_ r) "Incorrect result size").
Proof.
  intros H. unfold asSRV, rawData, ns_rr_rdata, sizeof_SrvHeader.
  destruct (Z.ltb_spec (rdata (record_ r)) (start_ r)) as [| H1];
    [reflexivity |].
  destruct (Z.ltb_spec (end_ r) (rdata (record_ r) + 6)) as [| H2];
    [reflexivity | lia].
Qed.

(** Past the header check: the six header bytes are read, and the result
    is decided by what [dn_expand] returns and stores. *)
Lemma asSRV_expand mem r :
  0 <= start_ r -> end_ r <= Z.of_nat (List.length mem) ->
  start_ r <= rdata (record_ r) -> rdata (record_ r) + 6 <= end_ r ->
  exists p0 p1 w0 w1 t0 t1,
    load_range mem (rdata (record_ r)) 6 = Ok [p0; p1; w0; w1; t0; t1] /\
    asSRV mem r =
    (name <- store_string (string_fill (N.to_nat 8192) "@")
               (snd (dn_expand mem (start_ r) (end_ r)
                               (rdata (record_ r) + 6) 8192)) ;;
     if fst (dn_expand mem (start_ r) (end_ r)
                       (rdata (record_ r) + 6) 8192) <? 1
     then Throw (SRV_error (pos_ r) "Invalid hostname format")
     else match c_str name with
          | None => Throw length_error
          | Some text =>
              Ok (text ++ ":" ++ to_string (be16 t0 t1) ++
                  ",prio=" ++ to_string (be16 p0 p1) ++
                  ",weight=" ++ to_string (be16 w0 w1))
          end).
Proof.
  intros Hs He Hlo Hhi.
  destruct (load_range_in_bounds mem 6 (rdata (record_ r))) as [raw Hraw];
    [lia | simpl; lia |].
  destruct (six raw (load_range_length _ _ _ _ Hraw))
    as (p0 & p1 & w0 & w1 & t0 & t1 & ->).
  exists p0, p1, w0, w1, t0, t1. split; [exact Hraw |].
  unfold asSRV, rawData, ns_rr_rdata, sizeof_SrvHeader.
  destruct (Z.ltb_spec (rdata (record_ r)) (start_ r)) as [| _]; [lia |].
  destruct (Z.ltb_spec (end_ r) (rdata (record_ r) + 6)) as [| _]; [lia |].
  cbn [orb].
  pose proof (load_range_load _ _ _ _ 0%nat p0 Hraw eq_refl) as H0.
  pose proof (load_range_load _ _ _ _ 1%nat p1 Hraw eq_refl) as H1.
  pose proof (load_range_load _ _ _ _ 2%nat w0 Hraw eq_refl) as H2.
  pose proof (load_range_load _ _ _ _ 3%nat w1 Hraw eq_refl) as H3.
  pose proof (load_range_load _ _ _ _ 4%nat t0 Hraw eq_refl) as H4.
  pose proof (load_range_load _ _ _ _ 5%nat t1 Hraw eq_refl) as H5.
  simpl Z.of_nat in *. rewrite Z.add_0_r in H0.
  rewrite H0, H1, H2, H3, H4, H5. cbn [bind priority weight port].
  rewrite string_fill_length, Nnat.N2Nat.id.
  destruct (dn_expand mem (start_ r) (end_ r) (rdata (record_ r) + 6) 8192)
    as [size stored].
  cbn [fst snd].
  destruct (store_string (string_fill (N.to_nat 8192) "@") stored)
    as [name | e |]; cbn [bind]; try reflexivity.
  destruct (size <? 1); [reflexivity |].
  unfold c_str. destruct (find NUL name) as [k |]; cbn [option_map];
    [| reflexivity].
  rewrite !ntohs_be, !N2Z.id, !append_assoc. reflexivity.
Qed.

(** C1, as the code has it.  With the message bounds inside the buffer,
    SRV decoding fails with "Incorrect result size" when the payload
    starts before the message or fewer than 6 bytes lie between its start
    and the end of the message, whatever the payload length says.
    Otherwise the header is read and the name after it expanded against
    the whole message: a return value below 1 fails with "Invalid hostname
    format"; else the output is the expanded name, a colon, the port,
    ",prio=", the priority, ",weight=" and the weight, the three numbers
    being the big-endian values of header bytes 4-5, 0-1 and 2-3.  So,
    when [dn_expand] leaves a C string within the 8192 characters it was
    given, decoding fails exactly when the header does not fit in the
    message or the expansion fails. *)
Theorem asSRV_format mem r
  (Hstart : 0 <= start_ r)
  (Hend : end_ r <= Z.of_nat (List.length mem)) :
  let data := ns_rr_rdata (record_ r) in
  let expansion := dn_expand mem (start_ r) (end_ r) (data + 6) 8192 in
  (data < start_ r \/ end_ r < data + 6 ->
   asSRV mem r = Throw (SRV_error (pos_ r) "Incorrect result size")) /\
  (start_ r <= data -> data + 6 <= end_ r ->
   (N.of_nat (String.length (snd expansion)) <= 8192)%N ->
   (fst expansion < 1 ->
    asSRV mem r = Throw (SRV_error (pos_ r) "Invalid hostname format")) /\
   (1 <= fst expansion ->
    forall name, c_str (snd expansion) = Some name ->
    exists p0 p1 w0 w1 t0 t1,
      load_range mem data 6 = Ok [p0; p1; w0; w1; t0; t1] /\
      asSRV mem r =
      Ok (name ++ ":" ++ to_string (be16 t0 t1) ++
          ",prio=" ++ to_string (be16 p0 p1) ++
          ",weight=" ++ to_string (be16 w0 w1)))) /\
  ((N.of_nat (String.length (snd expansion)) <= 8192)%N ->
   c_str (snd expansion) <> None ->
   (throws (asSRV mem r) <->
    data < start_ r \/ end_ r < data + 6 \/ fst expansion < 1)).
Proof.
  intros data expansion. unfold ns_rr_rdata in data.
  assert (Hpast : start_ r <= data -> data + 6 <= end_ r ->
            (N.of_nat (String.length (snd expansion)) <= 8192)%N ->
            (fst expansion < 1 ->
             asSRV mem r = Throw (SRV_error (pos_ r) "Invalid hostname format")) /\
            (1 <= fst expansion ->
             forall name, c_str (snd expansion) = Some name ->
             exists p0 p1 w0 w1 t0 t1,
               load_range mem data 6 = Ok [p0; p1; w0; w1; t0; t1] /\
               asSRV mem r =
               Ok (name ++ ":" ++ to_string (be16 t0 t1) ++
                   ",prio=" ++ to_string (be16 p0 p1) ++
                   ",weight=" ++ to_string (be16 w0 w1)))).
  { intros Hlo Hhi Hroom.
    destruct (asSRV_expand mem r Hstart Hend Hlo Hhi)
      as (p0 & p1 & w0 & w1 & t0 & t1 & Hraw & E).
    fold data in E, Hraw. fold expansion in E. split.
    - intros Hsize. rewrite E. unfold store_string.
      rewrite string_fill_length.
      destruct (Nat.ltb_spec (N.to_nat 8192) (String.length (snd expansion)));
        [lia |].
      cbn [bind]. destruct (Z.ltb_spec (fst expansion) 1); [reflexivity | lia].
    - intros Hsize name Hname.
      exists p0, p1, w0, w1, t0, t1. split; [exact Hraw |].
      rewrite E.
      destruct (c_str_store (string_fill (N.to_nat 8192) "@")
                  (snd expansion) name) as (buf & Hst & Hbuf);
        [rewrite string_fill_length; lia | exact Hname |].
      rewrite Hst. cbn [bind].
      destruct (Z.ltb_spec (fst expansion) 1); [lia |].
      rewrite Hbuf. reflexivity. }
  split; [apply asSRV_header_check |]. split; [exact Hpast |].
  intros Hroom Hc. split.
  - intros Ht.
    destruct (Z.lt_ge_cases data (start_ r)) as [| Hlo]; [auto |].
    destruct (Z.lt_ge_cases (end_ r) (data + 6)) as [| Hhi]; [auto |].
    destruct (Z.lt_ge_cases (fst expansion) 1) as [| Hsize]; [auto |].
    exfalso. destruct (Hpast Hlo Hhi Hroom) as [_ Hok].
    destruct (c_str (snd expansion)) as [name |]; [| contradiction].
    destruct (Hok Hsize name eq_refl) as (? & ? & ? & ? & ? & ? & _ & E).
    rewrite E in Ht. exact (not_throws_Ok _ Ht).
  - intros [H | [H | H]].
    + rewrite asSRV_header_check by auto. apply throws_Throw.
    + rewrite asSRV_header_check by auto. apply throws_Throw.
    + destruct (Z.lt_ge_cases data (start_ r)) as [| Hlo];
        [rewrite asSRV_header_check by auto; apply throws_Throw |].
      destruct (Z.lt_ge_cases (end_ r) (data + 6)) as [| Hhi];
        [rewrite asSRV_header_check by auto; apply throws_Throw |].
      rewrite (proj1 (Hpast Hlo Hhi Hroom) H). apply throws_Throw.
Qed.

(** C7.  For a type outside A, AAAA, SRV, TXT and CNAME, [read] returns
    the empty string and does not fail, whatever the record holds. *)
Theorem read_unrecognized mem r (type : QueryType)
  (Htype : ~ In type [QueryTypes.A; QueryTypes.AAAA; QueryTypes.SRV;
                      QueryTypes.TXT; QueryTypes.CNAME]) :
  read mem r type = Ok EmptyString.
Proof.
  unfold read.
  repeat match goal with
         | |- context [?a =? ?b] =>
             destruct (Z.eqb_spec a b) as [E | _];
             [exfalso; apply Htype; rewrite E; simpl; tauto |]
         end.
  reflexivity.
Qed.

End Decoder.

(** The SRV example of the specification, on the resolver of [Wire]:
    the record found in [srv_message] decodes to the expected text. *)
Example srv_message_records :
  match DNSReponse_ctor (L := Wire.resolv (Samples.reply Samples.srv_message))
          "a.b" Samples.srv_message with
  | Ok response => records_ response = [Samples.srv_record]
  | _ => False
  end.
Proof. vm_compute. reflexivity. Qed.

Lemma asSRV_format_witness :
  asSRV (L := Wire.resolv (Samples.reply Samples.srv_message))
    Samples.srv_message Samples.srv_record
  = Ok "svc.example.com:80,prio=1,weight=2".
Proof.
  destruct (asSRV_format (L := Wire.resolv (Samples.reply Samples.srv_message))
              Samples.srv_message Samples.srv_record)
    as (_ & H & _).
  - simpl; lia.
  - simpl; lia.
  - destruct H as [_ H].
    + simpl; lia.
    + simpl; lia.
    + vm_compute; discriminate.
    + destruct (H ltac:(vm_compute; discriminate) "svc.example.com" eq_refl)
        as (p0 & p1 & w0 & w1 & t0 & t1 & Hraw & E).
      vm_compute in Hraw. inversion Hraw; subst. exact E.
Defined.

Lemma read_unrecognized_witness :
  read (L := Wire.resolv (Samples.reply Samples.txt_message))
    Samples.txt_message (Samples.record_at 16 33 5 38 0) 99
  = Ok EmptyString.
Proof.
  apply read_unrecognized. simpl. intros [H | [H | [H | [H | [H | H]]]]];
    try discriminate H. exact H.
Defined.

(** C1, as stated, fails on the code in both directions.  In
    [short_srv_message] the first answer has a payload of 2 bytes, fewer
    than 6, and decodes without failure, the header and the name being
    read from the bytes of the next record.  In [looping_srv_message] the
    answer has a payload of 8 bytes and decoding fails, in the expansion
    of the name. *)
Lemma asSRV_payload_length_counterexample :
  (match DNSReponse_ctor
           (L := Wire.resolv (Samples.reply Samples.short_srv_message))
           "a.b" Samples.short_srv_message with
   | Ok response =>
       nth_error (records_ response) 0 = Some Samples.short_record
   | _ => False
   end /\
   ~ (throws (asSRV (L := Wire.resolv (Samples.reply Samples.short_srv_message))
                Samples.short_srv_message Samples.short_record) <->
      N.lt (ns_rr_rdlen (record_ Samples.short_record)) 6)) /\
  (match DNSReponse_ctor
           (L := Wire.resolv (Samples.reply Samples.looping_srv_message))
           "a.b" Samples.looping_srv_message with
   | Ok response =>
       records_ response = [Samples.looping_record]
   | _ => False
   end /\
   ~ (throws (asSRV (L := Wire.resolv (Samples.reply Samples.looping_srv_message))
                Samples.looping_srv_message Samples.looping_record) <->
      N.lt (ns_rr_rdlen (record_ Samples.looping_record)) 6)).
Proof.
  split; split.
  - vm_compute. reflexivity.
  - intros [_ H].
    assert (Ht : throws (asSRV
                   (L := Wire.resolv (Samples.reply Samples.short_srv_message))
                   Samples.short_srv_message Samples.short_record))
      by (apply H; simpl; lia).
    destruct Ht as [e He]. vm_compute in He. discriminate He.
  - vm_compute. reflexivity.
  - intros [H _].
    assert (Hlt : N.lt (ns_rr_rdlen (record_ Samples.looping_record)) 6).
    { apply H. eexists. vm_compute. reflexivity. }
    simpl in Hlt. lia.
Qed.

Example srv_message_lookup :
  Lookup (L := Wire.resolv (Samples.reply Samples.srv_message))
    "a.b" ns_c_in QueryTypes.SRV
  = CallbackResult (map String_New ["svc.example.com:80,prio=1,weight=2"]).
Proof. vm_compute. reflexivity. Qed.

Example short_srv_message_lookup :
  Lookup (L := Wire.resolv (Samples.reply Samples.short_srv_message))
    "a.b" ns_c_in QueryTypes.SRV
  = CallbackResult (map String_New [":33,prio=1,weight=49164";
                                    "svc.example.com:80,prio=1,weight=2"]).
Proof. vm_compute. reflexivity. Qed.

Example looping_srv_message_lookup :
  Lookup (L := Wire.resolv (Samples.reply Samples.looping_srv_message))
    "a.b" ns_c_in QueryTypes.SRV
  = CallbackError "Incorrect result 0 of SRV answer: Invalid hostname format".
Proof. vm_compute. reflexivity. Qed.

(** ** C strings *)

Lemma c_string_no_nul s : find NUL (c_string s) = None.
Proof.
  induction s as [| a s IH]; simpl; [reflexivity |].
  destruct (Ascii.eqb a NUL) eqn:E; [reflexivity |].
  simpl. rewrite E, IH. reflexivity.
Qed.

Lemma c_string_id s : find NUL s = None -> c_string s = s.
Proof.
  induction s as [| a s IH]; simpl; [reflexivity |].
  destruct (Ascii.eqb a NUL); [discriminate |].
  destruct (find NUL s); [discriminate |].
  intros _. rewrite IH; reflexivity.
Qed.

Lemma c_string_append a b :
  find NUL a = None -> c_string (a ++ b) = a ++ c_string b.
Proof.
  induction a as [| c a IH]; simpl; [reflexivity |].
  destruct (Ascii.eqb c NUL); [discriminate |].
  destruct (find NUL a); [discriminate |].
  intros _. rewrite IH; reflexivity.
Qed.

Lemma find_NUL_append a b :
  find NUL a = None -> find NUL b = None -> find NUL (a ++ b) = None.
Proof.
  induction a as [| c a IH]; simpl; [auto |].
  destruct (Ascii.eqb c NUL); [discriminate |].
  destruct (find NUL a); [discriminate |].
  intros _ Hb. rewrite IH by auto. reflexivity.
Qed.

(** A name is cut at its first NUL, with all that follows it. *)
Lemma c_string_cut pre post rest :
  find NUL pre = None -> c_string ((pre ++ String NUL post) ++ rest) = pre.
Proof.
  intros H. rewrite append_assoc, (c_string_append _ _ H). simpl.
  induction pre as [| c pre IH]; simpl; [reflexivity |].
  simpl in H. destruct (Ascii.eqb c NUL); [discriminate |].
  destruct (find NUL pre); [discriminate |]. rewrite IH; reflexivity.
Qed.

Lemma to_string_no_nul n : find NUL (to_string n) = None.
Proof.
  assert (H : forall d, find NUL (DecimalString.NilEmpty.string_of_uint d) = None).
  { induction d; simpl; try rewrite IHd; reflexivity. }
  unfold to_string, DecimalString.NilZero.string_of_uint.
  destruct (N.to_uint n); try apply H. reflexivity.
Qed.

Lemma what_runtime_error s :
  find NUL s = None -> what (runtime_error s) = s.
Proof. exact (c_string_id s). Qed.

Lemma strerror_no_nul {L : Resolv} errnum : find NUL (strerror errnum) = None.
Proof. apply c_string_no_nul. Qed.

Lemma hstrerror_no_nul {L : Resolv} err : find NUL (hstrerror err) = None.
Proof. apply c_string_no_nul. Qed.

(** ** The response parser and the resolver session *)

Lemma resize_length (buf : list byte) n : List.length (resize buf n) = n.
Proof.
  unfold resize. rewrite length_app, length_firstn, repeat_length. lia.
Qed.

Lemma resize_firstn (buf : list byte) n :
  (n <= List.length buf)%nat -> resize buf n = firstn n buf.
Proof.
  intros H. unfold resize. replace (n - List.length buf)%nat with 0%nat by lia.
  apply app_nil_r.
Qed.

Lemma store_bytes_length buf stored :
  (List.length stored <= List.length buf)%nat ->
  exists buf', store_bytes buf stored = Ok buf' /\
               List.length buf' = List.length buf.
Proof.
  intros H. unfold store_bytes.
  destruct (Nat.ltb_spec (List.length buf) (List.length stored)); [lia |].
  eexists; split; [reflexivity |]. rewrite length_app, length_skipn. lia.
Qed.

Section Session.

Context {L : Resolv} {J : Napi}.

(** C8.  [Lookup] hands the resolver a buffer of 65536 bytes.  When the
    resolver reports a length [rc >= 0] (having stored no more than the
    buffer holds), the message moved into the response is that buffer
    resized to [rc]: its length is [rc], and it is the first [rc] bytes of
    the buffer whenever [rc] is within 65536. *)
Theorem Lookup_buffer_size state name cls type rc stored h_errno
  (Hcall : res_nsearch state name cls type 65536 = (rc, stored, h_errno))
  (Hroom : (N.of_nat (List.length stored) <= 65536)%N)
  (Hrc : 0 <= rc) :
  exists answer raw,
    List.length answer = N.to_nat 65536 /\
    store_bytes (repeat x00 (N.to_nat 65536)) stored = Ok answer /\
    Lookup_answer state name cls type = Ok raw /\
    raw = resize answer (Z.to_nat rc) /\
    List.length raw = Z.to_nat rc /\
    (rc <= 65536 -> raw = firstn (Z.to_nat rc) answer) /\
    DNSController_Lookup state name cls type = DNSReponse_ctor name raw.
Proof.
  destruct (store_bytes_length (repeat x00 (N.to_nat 65536)) stored)
    as (answer & Hstore & Hlen); [rewrite repeat_length; lia |].
  rewrite repeat_length in Hlen.
  assert (E : Lookup_answer state name cls type
              = Ok (resize answer (Z.to_nat rc))).
  { unfold Lookup_answer. rewrite repeat_length, Nnat.N2Nat.id, Hcall, Hstore.
    cbn [bind]. destruct (Z.ltb_spec rc 0); [lia | reflexivity]. }
  exists answer, (resize answer (Z.to_nat rc)).
  repeat split; try assumption.
  - apply resize_length.
  - intros Hle. apply resize_firstn. lia.
  - unfold DNSController_Lookup. rewrite E. reflexivity.
Qed.

(** The worker on a lookup whose session and query succeeded: what is
    delivered is decided by the response parser and the decoders. *)
Lemma Lookup_parsed query cls type state raw :
  DNSController_ctor = Ok state ->
  Lookup_answer state query (int32_of_number cls) (int32_of_number type)
  = Ok raw ->
  Lookup query cls type =
  match DNSReponse_ctor query raw with
  | Ok response =>
      match read_records (raw_data_ response) (int32_of_number type)
                         (records_ response) [] with
      | (strings, Ok _) => CallbackResult (map String_New strings)
      | (strings, Throw e) =>
          OnWorkComplete
            {| result_ := strings; name_ := query;
               cls_ := int32_of_number cls; type_ := int32_of_number type |}
            (what e)
      | (_, Fault) => Undefined
      end
  | Throw e =>
      OnWorkComplete
        {| result_ := []; name_ := query;
           cls_ := int32_of_number cls; type_ := int32_of_number type |}
        (what e)
  | Fault => Undefined
  end.
Proof.
  intros Hctor Hans. unfold Lookup, Queue, Execute, DNSController_Lookup.
  cbv zeta. cbn [name_ cls_ type_ result_]. rewrite Hctor, Hans. cbn [bind].
  destruct (DNSReponse_ctor query raw) as [response | e |]; try reflexivity.
  destruct (read_records (raw_data_ response) (int32_of_number type)
                         (records_ response) [])
    as [strings [[] | e |]]; reflexivity.
Qed.

(** C6.  When the header of the message parses and declares no answer, the
    response parser returns a response without records and the lookup
    delivers the empty sequence as its result, not an error.  When the
    header does not parse, the parser throws "Invalid DNS answer" with the
    name that was looked up between quotes; the lookup delivers the C
    string of that text as its error, which is the whole text when the
    name holds no NUL. *)
Theorem zero_answers_empty_result search raw :
  let parsed := ns_initparse raw 0 (N.of_nat (List.length raw)) in
  (fst parsed = 0 -> ns_msg_count (snd parsed) ns_s_an = 0%N ->
   DNSReponse_ctor search raw =
   Ok {| raw_data_ := raw; records_ := []; answer_ := snd parsed |} /\
   forall state cls type,
     DNSController_ctor = Ok state ->
     Lookup_answer state search (int32_of_number cls) (int32_of_number type)
     = Ok raw ->
     Lookup search cls type = CallbackResult []) /\
  (fst parsed <> 0 ->
   DNSReponse_ctor search raw = Throw (InvalidResponse search) /\
   forall state cls type,
     DNSController_ctor = Ok state ->
     Lookup_answer state search (int32_of_number cls) (int32_of_number type)
     = Ok raw ->
     Lookup search cls type =
     CallbackError ("Invalid DNS answer for " ++ dquote ++
                    c_string (search ++ dquote)) /\
     (find NUL search = None ->
      Lookup search cls type =
      CallbackError ("Invalid DNS answer for " ++ dquote ++ search ++ dquote))).
Proof.
  intros parsed. split.
  - intros Hrc Hcount.
    assert (E : DNSReponse_ctor search raw =
                Ok {| raw_data_ := raw; records_ := [];
                      answer_ := snd parsed |}).
    { unfold DNSReponse_ctor. fold parsed.
      destruct parsed as [rc answer]; simpl in *. subst rc. cbn [Z.eqb negb].
      rewrite Hcount. reflexivity. }
    split; [exact E |]. intros state cls type Hctor Hans.
    rewrite (Lookup_parsed _ _ _ _ _ Hctor Hans), E. reflexivity.
  - intros Hrc.
    assert (E : DNSReponse_ctor search raw = Throw (InvalidResponse search)).
    { unfold DNSReponse_ctor. fold parsed.
      destruct parsed as [rc answer]; simpl in *.
      destruct (Z.eqb_spec rc 0); [contradiction | reflexivity]. }
    split; [exact E |]. intros state cls type Hctor Hans.
    assert (Hcut : Lookup search cls type =
                   CallbackError ("Invalid DNS answer for " ++ dquote ++
                                  c_string (search ++ dquote))).
    { rewrite (Lookup_parsed _ _ _ _ _ Hctor Hans), E. reflexivity. }
    split; [exact Hcut |].
    intros Hnul. rewrite Hcut, c_string_id; [reflexivity |].
    apply find_NUL_append; [exact Hnul | reflexivity].
Qed.

End Session.

(** ** What a decoder can throw *)

Lemma bind_Throw {A B : Type} (c : result A) (k : A -> result B) e :
  bind c k = Throw e -> c = Throw e \/ exists a, c = Ok a /\ k a = Throw e.
Proof.
  destruct c as [a | e' |]; simpl; intros H; try discriminate.
  - right; exists a; split; [reflexivity | exact H].
  - left; inversion H; reflexivity.
Qed.

Lemma load_no_throw mem p e : load mem p <> Throw e.
Proof.
  unfold load. destruct (p <? 0); [discriminate |].
  destruct (nth_error mem (Z.to_nat p)); discriminate.
Qed.

Lemma load_range_no_throw mem n : forall p e, load_range mem p n <> Throw e.
Proof.
  induction n as [| n IH]; intros p e H; [discriminate |].
  simpl in H. apply bind_Throw in H as [H | (b & _ & H)].
  - exact (load_no_throw _ _ _ H).
  - apply bind_Throw in H as [H | (bs & _ & H)]; [| discriminate].
    exact (IH _ _ H).
Qed.

(** Case analysis on a computation known to throw. *)
Ltac throw_cases H :=
  repeat match type of H with
         | Throw _ = Throw _ => inversion H; subst; clear H
         | Ok _ = Throw _ => discriminate H
         | Fault = Throw _ => discriminate H
         | bind (load _ _) _ = Throw _ =>
             apply bind_Throw in H as [H | (? & _ & H)];
             [exfalso; exact (load_no_throw _ _ _ H) |]
         | bind (load_range _ _ _) _ = Throw _ =>
             apply bind_Throw in H as [H | (? & _ & H)];
             [exfalso; exact (load_range_no_throw _ _ _ _ H) |]
         | (if ?b then _ else _) = Throw _ => destruct b
         end.

Lemma asTXT_throw mem r e : asTXT mem r = Throw e -> e = TXT_error.
Proof.
  unfold asTXT, rawData. intros H. throw_cases H; reflexivity.
Qed.

Lemma asA_throw mem r e : asA mem r = Throw e -> e = A_error.
Proof.
  unfold asA, rawData. intros H. throw_cases H; reflexivity.
Qed.

Lemma asAAAA_throw mem r e : asAAAA mem r = Throw e -> e = A_error.
Proof.
  unfold asAAAA, rawData. intros H. throw_cases H; reflexivity.
Qed.

Lemma Forall2_nth {A B : Type} (R : A -> B -> Prop) : forall l l' i a,
  Forall2 R l l' -> nth_error l i = Some a ->
  exists b, nth_error l' i = Some b /\ R a b.
Proof.
  intros l l' i a H. revert i. induction H as [| x y l l' Hxy H IH];
    intros i Hi.
  - destruct i; discriminate Hi.
  - destruct i as [| i]; simpl in Hi.
    + inversion Hi; subst. exists y; split; [reflexivity | exact Hxy].
    + exact (IH i Hi).
Qed.

Section Atomicity.

Context {L : Resolv} {J : Napi}.

Lemma asSRV_throw mem r e :
  asSRV mem r = Throw e ->
  e = length_error \/ exists cause, e = SRV_error (pos_ r) cause.
Proof.
  unfold asSRV, rawData. intros H.
  destruct ((ns_rr_rdata (record_ r) <? start_ r)
            || (end_ r <? ns_rr_rdata (record_ r) + sizeof_SrvHeader)).
  { inversion H. right. eexists. reflexivity. }
  do 6 (apply bind_Throw in H as [H | (? & _ & H)];
        [exfalso; exact (load_no_throw _ _ _ H) |]).
  destruct (dn_expand _ _ _ _ _) as [size stored].
  apply bind_Throw in H as [H | (name & _ & H)].
  { unfold store_string in H. destruct (Nat.ltb _ _); discriminate H. }
  destruct (size <? 1).
  { inversion H. right. eexists. reflexivity. }
  destruct (find NUL name); [discriminate H |].
  inversion H. left. reflexivity.
Qed.

(** What [read] throws, by type: a fixed text for A, AAAA, TXT and CNAME;
    for SRV a text that names the record's own position. *)
Lemma read_throw mem r type e :
  read mem r type = Throw e ->
  (type = QueryTypes.A \/ type = QueryTypes.AAAA -> e = A_error) /\
  (type = QueryTypes.TXT \/ type = QueryTypes.CNAME -> e = TXT_error) /\
  (type = QueryTypes.SRV ->
   e = length_error \/ exists cause, e = SRV_error (pos_ r) cause) /\
  what e <> EmptyString.
Proof.
  unfold read. intros H.
  destruct (Z.eqb_spec type QueryTypes.A) as [-> | nA].
  { apply asA_throw in H as ->. repeat split; auto; try discriminate;
      intros [E | E]; discriminate E. }
  destruct (Z.eqb_spec type QueryTypes.AAAA) as [-> | nAAAA].
  { apply asAAAA_throw in H as ->. repeat split; auto; try discriminate;
      intros [E | E]; discriminate E. }
  destruct (Z.eqb_spec type QueryTypes.SRV) as [-> | nSRV].
  { apply asSRV_throw in H.
    repeat split; auto; try (intros [E | E]; discriminate E).
    destruct H as [-> | (cause & ->)]; discriminate. }
  destruct (Z.eqb_spec type QueryTypes.TXT) as [-> | nTXT].
  { apply asTXT_throw in H as ->. repeat split; auto; try discriminate;
      intros [E | E]; discriminate E. }
  destruct (Z.eqb_spec type QueryTypes.CNAME) as [-> | nCNAME].
  { apply asTXT_throw in H as ->. repeat split; auto; try discriminate;
      intros [E | E]; discriminate E. }
  discriminate H.
Qed.

Lemma ResourceRecord_ctor_Ok mem msg pos msg' r :
  ResourceRecord_ctor mem msg pos = Ok (msg', r) -> pos_ r = pos.
Proof.
  unfold ResourceRecord_ctor.
  destruct (ns_parserr mem msg ns_s_an (Z.of_N pos)) as [[[rc m] rr] errno].
  destruct (negb (rc =? 0)); intros H; inversion H; reflexivity.
Qed.

Lemma ResourceRecord_ctor_throw mem msg pos e :
  ResourceRecord_ctor mem msg pos = Throw e ->
  exists cause, e = InvalidRecord pos cause.
Proof.
  unfold ResourceRecord_ctor.
  destruct (ns_parserr mem msg ns_s_an (Z.of_N pos)) as [[[rc m] rr] errno].
  destruct (negb (rc =? 0)); intros H; inversion H. eexists; reflexivity.
Qed.

(** The records the constructor's loop appends: one per iteration, each
    holding its own index. *)
Lemma emplace_records_Ok mem : forall count answer i acc answer' records,
  emplace_records mem answer i count acc = Ok (answer', records) ->
  exists new,
    records = (acc ++ new)%list /\ List.length new = count /\
    forall k r, nth_error new k = Some r -> pos_ r = (i + N.of_nat k)%N.
Proof.
  induction count as [| count IH]; intros answer i acc answer' records H.
  - inversion H; subst. exists []. rewrite app_nil_r.
    repeat split. intros [| k] r Hk; discriminate Hk.
  - simpl in H. apply bind_Ok in H as ([a r0] & Hctor & H).
    apply ResourceRecord_ctor_Ok in Hctor. cbn [fst snd] in H.
    apply IH in H as (new & -> & Hlen & Hpos).
    exists (r0 :: new). rewrite <- app_assoc. repeat split.
    + simpl; lia.
    + intros [| k] r Hk; simpl in Hk.
      * inversion Hk; subst. lia.
      * rewrite (Hpos _ _ Hk). lia.
Qed.

Lemma emplace_records_throw mem : forall count answer i acc e,
  emplace_records mem answer i count acc = Throw e ->
  exists pos cause, e = InvalidRecord pos cause.
Proof.
  induction count as [| count IH]; intros answer i acc e H; [discriminate |].
  simpl in H. apply bind_Throw in H as [H | (ar & _ & H)].
  - apply ResourceRecord_ctor_throw in H as [cause ->]. eauto.
  - eauto.
Qed.

(** The loop after [a] iterations continues from where they left it. *)
Lemma emplace_records_add mem : forall a b answer i acc,
  emplace_records mem answer i (a + b) acc =
  (ar <- emplace_records mem answer i a acc ;;
   emplace_records mem (fst ar) (i + N.of_nat a)%N b (snd ar)).
Proof.
  induction a as [| a IH]; intros b answer i acc.
  - simpl. rewrite N.add_0_r. reflexivity.
  - change (S a + b)%nat with (S (a + b)). cbn [emplace_records].
    destruct (ResourceRecord_ctor mem answer i) as [[m r] | e |];
      cbn [bind fst snd]; try reflexivity.
    rewrite IH. replace (i + 1 + N.of_nat a)%N with (i + N.of_nat (S a))%N by lia.
    reflexivity.
Qed.

Lemma read_records_Ok mem type : forall records acc strings,
  read_records mem type records acc = (strings, Ok tt) ->
  exists new,
    strings = (acc ++ new)%list /\
    Forall2 (fun record s => read mem record type = Ok s) records new.
Proof.
  induction records as [| r records IH]; intros acc strings H.
  - inversion H; subst. exists []. rewrite app_nil_r. split; constructor.
  - simpl in H. destruct (read mem r type) as [s | e |] eqn:Hr;
      try discriminate H.
    apply IH in H as (new & -> & Hall).
    exists (s :: new). rewrite <- app_assoc. split; [reflexivity |].
    constructor; assumption.
Qed.

Lemma read_records_throw mem type : forall records acc strings e,
  read_records mem type records acc = (strings, Throw e) ->
  exists record, In record records /\ read mem record type = Throw e.
Proof.
  induction records as [| r records IH]; intros acc strings e H;
    [discriminate |].
  simpl in H. destruct (read mem r type) as [s | e' |] eqn:Hr.
  - apply IH in H as (record & Hin & Hthrow). exists record; split;
      [right; exact Hin | exact Hthrow].
  - inversion H; subst. exists r; split; [left; reflexivity | exact Hr].
  - discriminate H.
Qed.

(** The first record that throws decides the outcome of the loop. *)
Lemma read_records_first mem type : forall records acc i record e,
  nth_error records i = Some record ->
  read mem record type = Throw e ->
  (forall j rj, (j < i)%nat -> nth_error records j = Some rj ->
                returns (read mem rj type)) ->
  exists strings, read_records mem type records acc = (strings, Throw e).
Proof.
  induction records as [| r records IH]; intros acc i record e Hi Hr Hbefore.
  - destruct i; discriminate Hi.
  - destruct i as [| i]; simpl in Hi.
    + inversion Hi; subst. simpl. rewrite Hr. eauto.
    + destruct (Hbefore 0%nat r) as [s Hs]; [lia | reflexivity |].
      simpl. rewrite Hs. apply (IH _ i record); auto.
      intros j rj Hj Hnth. apply (Hbefore (S j)); [lia | exact Hnth].
Qed.

Lemma DNSReponse_ctor_Ok search raw handle response :
  ns_initparse raw 0 (N.of_nat (List.length raw)) = (0, handle) ->
  DNSReponse_ctor search raw = Ok response ->
  raw_data_ response = raw /\
  List.length (records_ response) = N.to_nat (ns_msg_count handle ns_s_an) /\
  forall k r, nth_error (records_ response) k = Some r -> pos_ r = N.of_nat k.
Proof.
  intros Hparse. unfold DNSReponse_ctor. rewrite Hparse. cbn [Z.eqb negb].
  destruct (N.eqb_spec (ns_msg_count handle ns_s_an) 0) as [E | _].
  - intros H; inversion H; subst; simpl. rewrite E. repeat split.
    intros [| k] r Hk; discriminate Hk.
  - intros H. apply bind_Ok in H as ([a records] & Hloop & H).
    inversion H; subst; simpl.
    apply emplace_records_Ok in Hloop as (new & -> & Hlen & Hpos).
    simpl. repeat split; [exact Hlen |].
    intros k r Hk. rewrite (Hpos _ _ Hk). lia.
Qed.

Lemma DNSReponse_ctor_throw search raw e :
  DNSReponse_ctor search raw = Throw e -> what e <> EmptyString.
Proof.
  unfold DNSReponse_ctor.
  destruct (ns_initparse raw 0 (N.of_nat (List.length raw))) as [rc handle].
  destruct (negb (rc =? 0)); [intros H; inversion H; discriminate |].
  destruct (ns_msg_count handle ns_s_an =? 0)%N; [discriminate |].
  intros H. apply bind_Throw in H as [H | (ar & _ & H)]; [| discriminate H].
  apply emplace_records_throw in H as (pos & cause & ->). discriminate.
Qed.

(** The causes [asSRV] itself gives. *)
Lemma asSRV_throw_cases mem r e :
  asSRV mem r = Throw e ->
  e = length_error \/
  e = SRV_error (pos_ r) "Incorrect result size" \/
  e = SRV_error (pos_ r) "Invalid hostname format".
Proof.
  unfold asSRV, rawData. intros H.
  destruct ((ns_rr_rdata (record_ r) <? start_ r)
            || (end_ r <? ns_rr_rdata (record_ r) + sizeof_SrvHeader)).
  { inversion H. right. left. reflexivity. }
  do 6 (apply bind_Throw in H as [H | (? & _ & H)];
        [exfalso; exact (load_no_throw _ _ _ H) |]).
  destruct (dn_expand _ _ _ _ _) as [size stored].
  apply bind_Throw in H as [H | (name & _ & H)].
  { unfold store_string in H. destruct (Nat.ltb _ _); discriminate H. }
  destruct (size <? 1).
  { inversion H. right. right. reflexivity. }
  destruct (find NUL name); [discriminate H |].
  inversion H. left. reflexivity.
Qed.

Lemma what_InvalidRecord pos cause :
  find NUL cause = None ->
  what (InvalidRecord pos cause) =
  "Invalid record " ++ to_string pos ++ " of DNS answer: " ++ cause.
Proof.
  intros H. apply what_runtime_error.
  repeat (apply find_NUL_append;
          [first [reflexivity | apply to_string_no_nul] |]).
  exact H.
Qed.

Lemma what_SRV_error pos cause :
  find NUL cause = None ->
  what (SRV_error pos cause) =
  "Incorrect result " ++ to_string pos ++ " of SRV answer: " ++ cause.
Proof.
  intros H. apply what_runtime_error.
  repeat (apply find_NUL_append;
          [first [reflexivity | apply to_string_no_nul] |]).
  exact H.
Qed.

Lemma OnWorkComplete_error w message :
  message <> EmptyString -> OnWorkComplete w message = CallbackError message.
Proof.
  intros H. unfold OnWorkComplete.
  destruct message; [contradiction | reflexivity].
Qed.

End Atomicity.

Section AllOrNothing.

Context {L : Resolv} {J : Napi}.

(** C2, as the code has it.  For a lookup whose session and query
    succeeded and whose message parses with a nonzero answer count:
    - a delivered result holds one JavaScript string per declared record,
      each made from the decoding of the record at its index, so a failure
      at any index leaves no result, and no prefix of one, to deliver;
    - when extracting record [i] fails after the records before it were
      extracted, the lookup delivers the error "Invalid record i of DNS
      answer: " followed by the system error text;
    - when decoding record [i] throws, no result is delivered; if the
      records before it decode, the error delivered is the text of that
      exception.  For SRV it is "Incorrect result i of SRV answer: "
      followed by "Incorrect result size" or "Invalid hostname format",
      or else the length error of [std::string::resize], which holds no
      index; for A, AAAA, TXT and CNAME it is the decoder's fixed text,
      which holds no index. *)
Theorem lookup_all_or_nothing query cls type state raw handle
  (Hctor : DNSController_ctor = Ok state)
  (Hans : Lookup_answer state query (int32_of_number cls)
                        (int32_of_number type) = Ok raw)
  (Hparse : ns_initparse raw 0 (N.of_nat (List.length raw)) = (0, handle))
  (Hcount : ns_msg_count handle ns_s_an <> 0%N) :
  let count := N.to_nat (ns_msg_count handle ns_s_an) in
  let kind := int32_of_number type in
  (forall strings,
     Lookup query cls type = CallbackResult strings ->
     exists response decoded,
       DNSReponse_ctor query raw = Ok response /\
       List.length (records_ response) = count /\
       List.length decoded = count /\
       strings = map String_New decoded /\
       Forall2 (fun record s => read raw record kind = Ok s)
               (records_ response) decoded) /\
  (forall i answer records,
     (i < count)%nat ->
     emplace_records raw handle 0 i [] = Ok (answer, records) ->
     fst (fst (fst (ns_parserr raw answer ns_s_an (Z.of_nat i)))) <> 0 ->
     Lookup query cls type =
     CallbackError
       ("Invalid record " ++ to_string (N.of_nat i) ++ " of DNS answer: " ++
        strerror (snd (ns_parserr raw answer ns_s_an (Z.of_nat i))))) /\
  (forall response i record e,
     DNSReponse_ctor query raw = Ok response ->
     nth_error (records_ response) i = Some record ->
     read raw record kind = Throw e ->
     (forall strings, Lookup query cls type <> CallbackResult strings) /\
     ((forall j rj, (j < i)%nat -> nth_error (records_ response) j = Some rj ->
                    returns (read raw rj kind)) ->
      Lookup query cls type = CallbackError (what e) /\
      (kind = QueryTypes.SRV ->
       (e = length_error /\ what e = "basic_string::_M_replace_aux") \/
       (exists cause,
          (cause = "Incorrect result size" \/
           cause = "Invalid hostname format") /\
          e = SRV_error (N.of_nat i) cause /\
          what e = "Incorrect result " ++ to_string (N.of_nat i) ++
                   " of SRV answer: " ++ cause)) /\
      (kind = QueryTypes.A \/ kind = QueryTypes.AAAA ->
       e = A_error /\ what e = "Invalid DNS A record receive") /\
      (kind = QueryTypes.TXT \/ kind = QueryTypes.CNAME ->
       e = TXT_error /\ what e = "Invalid DNS TXT record received"))).
Proof.
  intros count kind.
  pose proof (Lookup_parsed query cls type state raw Hctor Hans) as Hrun.
  fold kind in Hrun.
  assert (Hdelivered : forall strings,
            Lookup query cls type = CallbackResult strings ->
            exists response decoded,
              DNSReponse_ctor query raw = Ok response /\
              List.length (records_ response) = count /\
              List.length decoded = count /\
              strings = map String_New decoded /\
              Forall2 (fun record s => read raw record kind = Ok s)
                      (records_ response) decoded).
  { intros strings Hres. rewrite Hrun in Hres.
    destruct (DNSReponse_ctor query raw) as [response | e |] eqn:Hresp.
    - destruct (DNSReponse_ctor_Ok _ _ _ _ Hparse Hresp) as (Hraw & Hlen & _).
      rewrite Hraw in Hres.
      destruct (read_records raw kind (records_ response) [])
        as [collected [[] | e |]] eqn:Hread.
      + inversion Hres as [Hstrings].
        apply read_records_Ok in Hread as (new & -> & Hall). simpl in *.
        exists response, new. repeat split; try assumption.
        rewrite <- (Forall2_length Hall). exact Hlen.
      + apply read_records_throw in Hread as (record & _ & Hthrow).
        apply read_throw in Hthrow as (_ & _ & _ & Hwhat).
        rewrite (OnWorkComplete_error _ _ Hwhat) in Hres. discriminate Hres.
      + discriminate Hres.
    - rewrite (OnWorkComplete_error _ _ (DNSReponse_ctor_throw _ _ _ Hresp))
        in Hres. discriminate Hres.
    - discriminate Hres. }
  split; [exact Hdelivered |]. split.
  - intros i answer records Hi Hloop Hrc. rewrite Hrun.
    assert (E : DNSReponse_ctor query raw =
                Throw (InvalidRecord (N.of_nat i)
                         (strerror (snd (ns_parserr raw answer ns_s_an
                                                    (Z.of_nat i)))))).
    { unfold DNSReponse_ctor. rewrite Hparse. cbn [Z.eqb negb].
      destruct (N.eqb_spec (ns_msg_count handle ns_s_an) 0) as [| _];
        [contradiction |].
      fold count. replace count with (i + S (count - i - 1))%nat by lia.
      rewrite emplace_records_add, Hloop. cbn [bind fst snd emplace_records].
      unfold ResourceRecord_ctor. rewrite N.add_0_l, nat_N_Z.
      destruct (ns_parserr raw answer ns_s_an (Z.of_nat i))
        as [[[rc m] rr] errno]. cbn [fst snd] in *.
      destruct (Z.eqb_spec rc 0); [contradiction | reflexivity]. }
    rewrite E, <- (what_InvalidRecord _ _ (strerror_no_nul _)).
    apply OnWorkComplete_error.
    rewrite (what_InvalidRecord _ _ (strerror_no_nul _)). discriminate.
  - intros response i record e Hresp Hnth Hthrow.
    destruct (DNSReponse_ctor_Ok _ _ _ _ Hparse Hresp) as (Hraw & _ & Hpos).
    split.
    + intros strings Hres.
      destruct (Hdelivered strings Hres)
        as (response' & decoded & Hresp' & _ & _ & _ & Hall).
      rewrite Hresp in Hresp'. inversion Hresp'; subst response'.
      destruct (Forall2_nth _ _ _ _ _ Hall Hnth) as (s & _ & Hs).
      rewrite Hthrow in Hs. discriminate Hs.
    + intros Hbefore.
      destruct (read_throw _ _ _ _ Hthrow) as (HA & HTXT & _ & Hwhat).
      assert (Hdeliv : Lookup query cls type = CallbackError (what e)).
      { rewrite Hrun, Hresp, Hraw.
        destruct (read_records_first raw kind (records_ response) []
                    i record e Hnth Hthrow Hbefore) as [collected ->].
        apply OnWorkComplete_error. exact Hwhat. }
      assert (HSRV : kind = QueryTypes.SRV ->
                (e = length_error /\ what e = "basic_string::_M_replace_aux") \/
                (exists cause,
                   (cause = "Incorrect result size" \/
                    cause = "Invalid hostname format") /\
                   e = SRV_error (N.of_nat i) cause /\
                   what e = "Incorrect result " ++ to_string (N.of_nat i) ++
                            " of SRV answer: " ++ cause)).
      { intros Hkind. unfold read in Hthrow. rewrite Hkind in Hthrow.
        cbn in Hthrow. rewrite <- (Hpos _ _ Hnth).
        apply asSRV_throw_cases in Hthrow as [-> | [-> | ->]].
        - left. split; reflexivity.
        - right. exists "Incorrect result size".
          split; [left; reflexivity |]. split; [reflexivity |].
          apply what_SRV_error. reflexivity.
        - right. exists "Invalid hostname format".
          split; [right; reflexivity |]. split; [reflexivity |].
          apply what_SRV_error. reflexivity. }
      split; [exact Hdeliv |]. split; [exact HSRV |]. split.
      * intros Hkind. rewrite (HA Hkind). split; reflexivity.
      * intros Hkind. rewrite (HTXT Hkind). split; reflexivity.
Qed.

End AllOrNothing.

(** ** The theorems of the session on concrete messages *)

Lemma Lookup_buffer_size_witness :
  exists raw,
    Lookup_answer (L := Wire.resolv (Samples.reply Samples.a_message))
      tt "a.b" ns_c_in QueryTypes.A = Ok raw /\
    List.length raw = 53%nat.
Proof.
  destruct (Lookup_buffer_size
              (L := Wire.resolv (Samples.reply Samples.a_message))
              tt "a.b" ns_c_in QueryTypes.A 53 Samples.a_message 0 eq_refl)
    as (answer & raw & _ & _ & E & _ & Hlen & _).
  - vm_compute; discriminate.
  - lia.
  - exists raw; split; [exact E | exact Hlen].
Defined.

Lemma zero_answers_empty_result_witness :
  Lookup (L := Wire.resolv (Samples.reply Samples.empty_message))
    "a.b" ns_c_in QueryTypes.A = CallbackResult [] /\
  Lookup (L := Wire.resolv (Samples.reply [x12; x34]))
    "a.b" ns_c_in QueryTypes.A
  = CallbackError ("Invalid DNS answer for " ++ dquote ++ "a.b" ++ dquote).
Proof.
  split.
  - destruct (zero_answers_empty_result
                (L := Wire.resolv (Samples.reply Samples.empty_message))
                "a.b" Samples.empty_message) as [H _].
    destruct H as [_ H]; [reflexivity | reflexivity |].
    apply (H tt); [reflexivity | vm_compute; reflexivity].
  - destruct (zero_answers_empty_result
                (L := Wire.resolv (Samples.reply [x12; x34]))
                "a.b" [x12; x34]) as [_ H].
    destruct H as [_ H]; [vm_compute; discriminate |].
    apply (H tt ns_c_in QueryTypes.A);
      [reflexivity | vm_compute; reflexivity | reflexivity].
Defined.

Lemma lookup_all_or_nothing_witness :
  Lookup (L := Wire.resolv (Samples.reply Samples.bad_owner_message))
    "a.b" ns_c_in QueryTypes.A
  = CallbackError "Invalid record 1 of DNS answer: Message too long".
Proof.
  destruct (lookup_all_or_nothing
              (L := Wire.resolv (Samples.reply Samples.bad_owner_message))
              "a.b" ns_c_in QueryTypes.A tt Samples.bad_owner_message
              (Samples.parsed_handle Samples.bad_owner_message))
    as (_ & H & _).
  - reflexivity.
  - vm_compute; reflexivity.
  - vm_compute; reflexivity.
  - vm_compute; discriminate.
  - etransitivity.
    + apply (H 1%nat (fst (Samples.loop_after Samples.bad_owner_message 1))
               (snd (Samples.loop_after Samples.bad_owner_message 1))).
      * vm_compute; lia.
      * vm_compute; reflexivity.
      * vm_compute; discriminate.
    + vm_compute; reflexivity.
Defined.

(** C2, as stated, fails on the code.  In [bad_a_message] the answer at
    index 1 has a payload of 3 bytes; its decoding as A throws, and the
    error the lookup delivers is the fixed text of the A decoder, in which
    the index does not occur. *)
Lemma decode_error_index_counterexample :
  match DNSReponse_ctor
          (L := Wire.resolv (Samples.reply Samples.bad_a_message))
          "a.b" Samples.bad_a_message with
  | Ok response =>
      exists record,
        nth_error (records_ response) 1 = Some record /\
        throws (read (L := Wire.resolv (Samples.reply Samples.bad_a_message))
                  Samples.bad_a_message record QueryTypes.A)
  | _ => False
  end /\
  Lookup (L := Wire.resolv (Samples.reply Samples.bad_a_message))
    "a.b" ns_c_in QueryTypes.A
  = CallbackError "Invalid DNS A record receive" /\
  ~ (exists message,
       Lookup (L := Wire.resolv (Samples.reply Samples.bad_a_message))
         "a.b" ns_c_in QueryTypes.A = CallbackError message /\
       occurs (to_string 1) message = true).
Proof.
  assert (E : Lookup (L := Wire.resolv (Samples.reply Samples.bad_a_message))
                "a.b" ns_c_in QueryTypes.A
              = CallbackError "Invalid DNS A record receive")
    by (vm_compute; reflexivity).
  split; [| split; [exact E |]].
  - vm_compute. eexists. split; [reflexivity |]. eexists. reflexivity.
  - intros (message & H & Hocc). rewrite E in H. inversion H; subst.
    vm_compute in Hocc. discriminate Hocc.
Qed.

Example truncated_message_lookup :
  Lookup (L := Wire.resolv (Samples.reply Samples.truncated_message))
    "a.b" ns_c_in QueryTypes.SRV
  = CallbackError ("Invalid DNS answer for " ++ dquote ++ "a.b" ++ dquote).
Proof. vm_compute. reflexivity. Qed.

Example a_message_lookup :
  Lookup (L := Wire.resolv (Samples.reply Samples.a_message))
    "a.b" ns_c_in QueryTypes.A
  = CallbackResult (map String_New ["127.0.0.1"; "10.0.0.255"]).
Proof. vm_compute. reflexivity. Qed.

(** A TXT byte that is not UTF-8 reaches JavaScript as U+FFFD. *)
Example String_New_replaces :
  String_New (string_of_bytes [x41; xff; xc3; xa9])
  = [65; Utf8.replacement; 233].
Proof. reflexivity. Qed.

Example txt_message_lookup :
  Lookup (L := Wire.resolv (Samples.reply Samples.txt_message))
    "a.b" ns_c_in QueryTypes.TXT
  = CallbackResult (map String_New ["AB"]).
Proof. vm_compute. reflexivity. Qed.

(** * Further properties of the binding *)

(** ** Decoders and the bounds of the buffer *)

Lemma payload_in_buffer mem r :
  in_buffer mem r -> exists p, payload mem r = Ok p.
Proof.
  intros [Hlo Hhi]. unfold payload, rawData, ns_rr_rdata, ns_rr_rdlen; simpl.
  apply load_range_in_bounds; [exact Hlo | lia].
Qed.

Lemma four (p : list byte) :
  List.length p = 4%nat -> exists a b c d, p = [a; b; c; d].
Proof.
  intros H. do 4 (destruct p as [| ? p]; [discriminate |]).
  destruct p; [| discriminate]. repeat eexists.
Qed.

Lemma asA_no_fault mem r : in_buffer mem r -> asA mem r <> Fault.
Proof.
  intros Hin. destruct (payload_in_buffer _ _ Hin) as [p Hp].
  pose proof (payload_length _ _ _ Hp) as Hlen.
  destruct (N.eq_dec (rdlength (record_ r)) 4) as [E | E].
  - destruct (four p) as (a & b & c & d & ->); [lia |].
    rewrite (asA_four _ _ _ _ _ _ Hp). discriminate.
  - rewrite (asA_wrong_length _ _ E). discriminate.
Qed.

Lemma asAAAA_no_fault mem r : in_buffer mem r -> asAAAA mem r <> Fault.
Proof.
  intros Hin. destruct (payload_in_buffer _ _ Hin) as [p Hp].
  pose proof (payload_length _ _ _ Hp) as Hlen.
  destruct (N.eq_dec (rdlength (record_ r)) 16) as [E | E].
  - rewrite (asAAAA_sixteen _ _ _ Hp); [discriminate | lia].
  - rewrite (asAAAA_wrong_length _ _ E). discriminate.
Qed.

Lemma asTXT_no_fault mem r : in_buffer mem r -> asTXT mem r <> Fault.
Proof.
  intros Hin. destruct (payload_in_buffer _ _ Hin) as [p Hp].
  rewrite (asTXT_payload _ _ _ Hp). destruct p as [| n rest]; [discriminate |].
  destruct (N.of_nat (List.length rest) <? u8 n)%N; discriminate.
Qed.

Lemma bytes_of_string_of_bytes (l : list byte) :
  bytes_of_string (string_of_bytes l) = l.
Proof.
  unfold bytes_of_string, string_of_bytes.
  rewrite list_ascii_of_string_of_list_ascii, map_map.
  rewrite <- (map_id l) at 2. apply map_ext. exact byte_of_ascii_of_byte.
Qed.

Lemma string_of_bytes_length (l : list byte) :
  String.length (string_of_bytes l) = List.length l.
Proof.
  unfold string_of_bytes. induction l as [| b l IH]; simpl;
    [reflexivity | rewrite IH; reflexivity].
Qed.

(** X9.  The text a TXT or CNAME record decodes to has as many characters
    as the length byte says, at most 255 and fewer than the payload has
    bytes, and its characters are the payload bytes after the length byte,
    unchanged: no byte, NUL included, is dropped, altered or ends the
    text. *)
Theorem asTXT_bytes_preserved mem r n rest s
  (Hp : payload mem r = Ok (n :: rest))
  (Hs : asTXT mem r = Ok s) :
  String.length s = N.to_nat (u8 n) /\
  bytes_of_string s = firstn (N.to_nat (u8 n)) rest /\
  (String.length s <= 255)%nat /\
  (N.of_nat (String.length s) < rdlength (record_ r))%N /\
  asCNAME mem r = Ok s.
Proof.
  pose proof (payload_length _ _ _ Hp) as Hlen.
  change (List.length (n :: rest)) with (S (List.length rest)) in Hlen.
  assert (E : asTXT mem r = asCNAME mem r) by reflexivity.
  rewrite <- E, Hs. clear E.
  rewrite (asTXT_payload _ _ _ Hp) in Hs.
  destruct (N.ltb_spec (N.of_nat (List.length rest)) (u8 n)) as [| Hle];
    [discriminate Hs |].
  inversion Hs as [Es]. clear Hs.
  assert (Hl : String.length (string_of_bytes (firstn (N.to_nat (u8 n)) rest))
               = N.to_nat (u8 n)).
  { rewrite string_of_bytes_length, length_firstn. lia. }
  pose proof (Byte.to_N_bounded n) as Hb. change (Byte.to_N n) with (u8 n) in Hb.
  repeat split.
  - exact Hl.
  - apply bytes_of_string_of_bytes.
  - rewrite Hl. lia.
  - rewrite Hl. lia.
Qed.

Lemma asTXT_bytes_preserved_witness :
  bytes_of_string "A" = [x41] /\
  bytes_of_string (String NUL "B") = [x00; x42].
Proof.
  split.
  - exact (proj1 (proj2 (asTXT_bytes_preserved [x01; x41; x42]
                           (Samples.whole [x01; x41; x42]) x01 [x41; x42] "A"
                           eq_refl eq_refl))).
  - exact (proj1 (proj2 (asTXT_bytes_preserved [x02; x00; x42]
                           (Samples.whole [x02; x00; x42]) x02 [x00; x42]
                           (String NUL "B") eq_refl eq_refl))).
Defined.

Section Safety.

Context {L : Resolv}.

Lemma asSRV_no_fault mem r :
  0 <= start_ r -> end_ r <= Z.of_nat (List.length mem) ->
  expansion_fits mem r ->
  asSRV mem r <> Fault.
Proof.
  intros Hs He Hroom. unfold expansion_fits, sizeof_SrvHeader in Hroom.
  destruct (Z.lt_ge_cases (rdata (record_ r)) (start_ r)) as [| Hlo];
    [rewrite asSRV_header_check by auto; discriminate |].
  destruct (Z.lt_ge_cases (end_ r) (rdata (record_ r) + 6)) as [| Hhi];
    [rewrite asSRV_header_check by auto; discriminate |].
  destruct (asSRV_expand mem r Hs He Hlo Hhi)
    as (p0 & p1 & w0 & w1 & t0 & t1 & _ & ->).
  unfold store_string. rewrite string_fill_length.
  destruct (Nat.ltb_spec (N.to_nat 8192)
              (String.length
                 (snd (dn_expand mem (start_ r) (end_ r)
                                 (rdata (record_ r) + 6) 8192)))); [lia |].
  cbn [bind]. destruct (_ <? 1); [discriminate |].
  destruct (c_str _); discriminate.
Qed.

(** X5.  No decoder reads outside the buffer.  Decoding as A, AAAA, TXT,
    CNAME or an unrecognized type a record whose payload lies in the
    buffer never faults: each read is guarded by the length check before
    it.  Decoding as SRV never faults when the message bounds lie in the
    buffer and [dn_expand] stores no more than the 8192 characters it was
    given, whatever the payload length is. *)
Theorem read_stays_in_buffer mem r type :
  (type <> QueryTypes.SRV -> in_buffer mem r -> read mem r type <> Fault) /\
  (type = QueryTypes.SRV ->
   0 <= start_ r -> end_ r <= Z.of_nat (List.length mem) ->
   expansion_fits mem r ->
   read mem r type <> Fault).
Proof.
  split.
  - intros HSRV Hin. unfold read.
    destruct (type =? QueryTypes.A); [exact (asA_no_fault _ _ Hin) |].
    destruct (type =? QueryTypes.AAAA); [exact (asAAAA_no_fault _ _ Hin) |].
    destruct (Z.eqb_spec type QueryTypes.SRV); [contradiction |].
    destruct (type =? QueryTypes.TXT); [exact (asTXT_no_fault _ _ Hin) |].
    destruct (type =? QueryTypes.CNAME); [exact (asTXT_no_fault _ _ Hin) |].
    discriminate.
  - intros -> Hs He Hroom. unfold read. cbn [Z.eqb QueryTypes.SRV ns_t_srv].
    exact (asSRV_no_fault _ _ Hs He Hroom).
Qed.

End Safety.

Lemma read_stays_in_buffer_witness :
  read (L := Wire.resolv (Samples.reply Samples.txt_message))
    Samples.txt_message (Samples.record_at 16 33 5 38 0) QueryTypes.TXT
  <> Fault /\
  read (L := Wire.resolv (Samples.reply Samples.short_srv_message))
    Samples.short_srv_message Samples.short_record QueryTypes.SRV
  <> Fault.
Proof.
  split.
  - apply (proj1 (read_stays_in_buffer
                    (L := Wire.resolv (Samples.reply Samples.txt_message))
                    Samples.txt_message (Samples.record_at 16 33 5 38 0)
                    QueryTypes.TXT)).
    + discriminate.
    + split; simpl; lia.
  - apply (proj2 (read_stays_in_buffer
                    (L := Wire.resolv (Samples.reply Samples.short_srv_message))
                    Samples.short_srv_message Samples.short_record
                    QueryTypes.SRV)).
    + reflexivity.
    + simpl; lia.
    + simpl; lia.
    + vm_compute; discriminate.
Defined.

(** ** The session: failures before parsing, and the bytes parsed *)

Lemma firstn_repeat {A : Type} (x : A) n k :
  firstn n (repeat x k) = repeat x (Nat.min n k).
Proof.
  revert k. induction n as [| n IH]; intros [| k]; simpl; try reflexivity.
  rewrite IH. reflexivity.
Qed.

Lemma skipn_repeat {A : Type} (x : A) n k :
  skipn n (repeat x k) = repeat x (k - n).
Proof.
  revert k. induction n as [| n IH]; intros [| k]; simpl; try reflexivity.
  apply IH.
Qed.

Section Failures.

Context {L : Resolv} {J : Napi}.

(** X1.  When [res_ninit] fails, the lookup delivers an error, never a
    result: the text announces the failed initialisation and ends with the
    system's description of [errno]. *)
Theorem init_failure_is_error query cls type
  (Hrc : fst (fst res_ninit) <> 0) :
  DNSController_ctor = Throw (InitError (strerror (snd res_ninit))) /\
  Lookup query cls type =
  CallbackError ("Could not perform DNS lookup, res_ninit() failed: " ++
                 strerror (snd res_ninit)).
Proof.
  assert (E : DNSController_ctor = Throw (InitError (strerror (snd res_ninit)))).
  { unfold DNSController_ctor. destruct res_ninit as [[rc state] errno].
    cbn [fst snd] in *. destruct (Z.eqb_spec rc 0); [contradiction | reflexivity]. }
  split; [exact E |].
  unfold Lookup, Queue, Execute. cbv zeta. rewrite E.
  assert (Hwhat : what (InitError (strerror (snd res_ninit))) =
                  "Could not perform DNS lookup, res_ninit() failed: " ++
                  strerror (snd res_ninit)).
  { apply what_runtime_error.
    apply find_NUL_append; [reflexivity | apply strerror_no_nul]. }
  rewrite Hwhat. reflexivity.
Qed.

Lemma Lookup_answer_failed state name cls type :
  fst (fst (res_nsearch state name cls type 65536)) < 0 ->
  (List.length (snd (fst (res_nsearch state name cls type 65536)))
   <= N.to_nat 65536)%nat ->
  Lookup_answer state name cls type =
  Throw (LookupError name
           (hstrerror (snd (res_nsearch state name cls type 65536)))).
Proof.
  intros Hrc Hroom. unfold Lookup_answer. rewrite repeat_length, Nnat.N2Nat.id.
  destruct (res_nsearch state name cls type 65536) as [[rc stored] h].
  cbn [fst snd] in *.
  destruct (store_bytes_length (repeat x00 (N.to_nat 65536)) stored)
    as (answer & -> & _); [rewrite repeat_length; exact Hroom |].
  cbn [bind]. destruct (Z.ltb_spec rc 0); [reflexivity | lia].
Qed.

(** X2.  When the resolver reports a failure (a negative return, having
    stayed inside the buffer), the lookup delivers an error, never a
    result, whatever was stored in the buffer.  The text is the C string
    of "Failed to look up", the name between quotes, and the resolver's
    description of [h_errno]: all of it when the name holds no NUL, and
    otherwise cut at the first NUL of the name. *)
Theorem query_failure_is_error query cls type state
  (Hctor : DNSController_ctor = Ok state)
  (Hrc : fst (fst (res_nsearch state query (int32_of_number cls)
                               (int32_of_number type) 65536)) < 0)
  (Hroom : (List.length
              (snd (fst (res_nsearch state query (int32_of_number cls)
                                     (int32_of_number type) 65536)))
            <= N.to_nat 65536)%nat) :
  let cause :=
    hstrerror (snd (res_nsearch state query (int32_of_number cls)
                                (int32_of_number type) 65536)) in
  Lookup query cls type =
  CallbackError ("Failed to look up " ++ dquote ++
                 c_string (query ++ dquote ++ ": " ++ cause)) /\
  (find NUL query = None ->
   Lookup query cls type =
   CallbackError ("Failed to look up " ++ dquote ++ query ++ dquote ++ ": " ++
                  cause)) /\
  (forall pre post,
     query = pre ++ String NUL post -> find NUL pre = None ->
     Lookup query cls type =
     CallbackError ("Failed to look up " ++ dquote ++ pre)).
Proof.
  intros cause.
  assert (E : Lookup query cls type =
              CallbackError ("Failed to look up " ++ dquote ++
                             c_string (query ++ dquote ++ ": " ++ cause))).
  { unfold Lookup, Queue, Execute, DNSController_Lookup. cbv zeta.
    cbn [name_ cls_ type_ result_].
    rewrite Hctor, (Lookup_answer_failed _ _ _ _ Hrc Hroom). reflexivity. }
  split; [exact E |]. split.
  - intros Hnul. rewrite E, c_string_id; [reflexivity |].
    apply find_NUL_append; [exact Hnul |].
    apply find_NUL_append; [reflexivity |].
    apply find_NUL_append; [reflexivity | apply hstrerror_no_nul].
  - intros pre post -> Hpre. rewrite E, c_string_cut by exact Hpre.
    reflexivity.
Qed.

(** X11.  The message that is parsed holds the bytes the resolver stored
    and zeros after them, up to the length the resolver reported; no byte
    of it is uninitialised.  When the reported length is the number of
    bytes stored, the message is exactly those bytes. *)
Theorem Lookup_answer_zero_filled state name cls type rc stored h_errno
  (Hcall : res_nsearch state name cls type 65536 = (rc, stored, h_errno))
  (Hroom : (List.length stored <= N.to_nat 65536)%nat)
  (Hrc : 0 <= rc) :
  Lookup_answer state name cls type =
  Ok (firstn (Z.to_nat rc) (stored ++ repeat x00 (Z.to_nat rc))%list) /\
  (Z.to_nat rc = List.length stored ->
   Lookup_answer state name cls type = Ok stored).
Proof.
  assert (E : Lookup_answer state name cls type =
              Ok (firstn (Z.to_nat rc) (stored ++ repeat x00 (Z.to_nat rc))%list)).
  { unfold Lookup_answer. rewrite repeat_length, Nnat.N2Nat.id, Hcall.
    unfold store_bytes. rewrite repeat_length.
    destruct (Nat.ltb_spec (N.to_nat 65536) (List.length stored)); [lia |].
    cbn [bind]. destruct (Z.ltb_spec rc 0); [lia |]. f_equal.
    unfold resize. rewrite skipn_repeat, length_app, repeat_length.
    rewrite !firstn_app, !firstn_repeat, <- app_assoc. f_equal.
    rewrite <- repeat_app. f_equal. lia. }
  split; [exact E |].
  intros Hlen. rewrite E, Hlen, firstn_app, Nat.sub_diag, firstn_all.
  simpl. apply f_equal, app_nil_r.
Qed.

End Failures.

Lemma init_failure_is_error_witness :
  Lookup (L := Wire.unconfigured Wire.ENODEV) "a.b" ns_c_in QueryTypes.A
  = CallbackError
      "Could not perform DNS lookup, res_ninit() failed: No such device".
Proof.
  refine (proj2 (init_failure_is_error (L := Wire.unconfigured Wire.ENODEV)
                   "a.b" ns_c_in QueryTypes.A _)).
  simpl; lia.
Defined.

Lemma query_failure_is_error_witness :
  Lookup (L := Wire.resolv (Wire.unreachable 1)) "a.b" ns_c_in QueryTypes.A
  = CallbackError ("Failed to look up " ++ dquote ++ "a.b" ++ dquote ++
                   ": Unknown host") /\
  Lookup (L := Wire.resolv (Wire.unreachable 1))
    ("a" ++ String NUL "b") ns_c_in QueryTypes.A
  = CallbackError ("Failed to look up " ++ dquote ++ "a").
Proof.
  split.
  - refine (proj1 (proj2 (query_failure_is_error
                            (L := Wire.resolv (Wire.unreachable 1))
                            "a.b" ns_c_in QueryTypes.A tt eq_refl _ _))
                  eq_refl).
    + simpl; lia.
    + simpl; lia.
  - refine (proj2 (proj2 (query_failure_is_error
                            (L := Wire.resolv (Wire.unreachable 1))
                            ("a" ++ String NUL "b") ns_c_in QueryTypes.A tt
                            eq_refl _ _))
                  "a" "b" eq_refl eq_refl).
    + simpl; lia.
    + simpl; lia.
Defined.

Lemma Lookup_answer_zero_filled_witness :
  Lookup_answer (L := Wire.resolv (Samples.reply Samples.a_message))
    tt "a.b" ns_c_in QueryTypes.A = Ok Samples.a_message.
Proof.
  refine (proj2 (Lookup_answer_zero_filled
                   (L := Wire.resolv (Samples.reply Samples.a_message))
                   tt "a.b" ns_c_in QueryTypes.A 53 Samples.a_message 0
                   eq_refl _ _) eq_refl).
  - apply Nat.leb_le. vm_compute. reflexivity.
  - lia.
Defined.

(** ** The worker: what is delivered *)

Section Delivery.

Context {L : Resolv} {J : Napi}.

Lemma read_records_all mem type : forall records acc strings,
  Forall2 (fun record s => read mem record type = Ok s) records strings ->
  read_records mem type records acc = ((acc ++ strings)%list, Ok tt).
Proof.
  induction records as [| r records IH]; intros acc strings H;
    inversion H as [| ? s ? strings' Hr Hrest]; subst.
  - simpl. rewrite app_nil_r. reflexivity.
  - simpl. rewrite Hr, (IH _ _ Hrest), <- app_assoc. reflexivity.
Qed.

Lemma DNSReponse_ctor_raw search raw response :
  DNSReponse_ctor search raw = Ok response -> raw_data_ response = raw.
Proof.
  unfold DNSReponse_ctor.
  destruct (ns_initparse raw 0 (N.of_nat (List.length raw))) as [rc handle].
  destruct (negb (rc =? 0)); [discriminate |].
  destruct (ns_msg_count handle ns_s_an =? 0)%N.
  - intros H; inversion H; reflexivity.
  - intros H. apply bind_Ok in H as (ar & _ & H). inversion H; reflexivity.
Qed.

(** X4.  When every record of the parsed response decodes, the lookup
    delivers the JavaScript strings that [String::New] makes of the
    decoded strings, one per record, in the order of the records in the
    message; nothing is sorted, dropped or merged. *)
Theorem lookup_delivers_in_order query cls type state raw response strings
  (Hctor : DNSController_ctor = Ok state)
  (Hans : Lookup_answer state query (int32_of_number cls)
                        (int32_of_number type) = Ok raw)
  (Hresp : DNSReponse_ctor query raw = Ok response)
  (Hall : Forall2 (fun record s =>
                     read raw record (int32_of_number type) = Ok s)
                  (records_ response) strings) :
  Lookup query cls type = CallbackResult (map String_New strings).
Proof.
  rewrite (Lookup_parsed _ _ _ _ _ Hctor Hans), Hresp.
  rewrite (DNSReponse_ctor_raw _ _ _ Hresp).
  rewrite (read_records_all _ _ _ [] _ Hall). reflexivity.
Qed.

Lemma read_other mem r type :
  type <> QueryTypes.A -> type <> QueryTypes.AAAA -> type <> QueryTypes.SRV ->
  type <> QueryTypes.TXT -> type <> QueryTypes.CNAME ->
  read mem r type = Ok EmptyString.
Proof.
  intros HA HAAAA HSRV HTXT HCNAME. unfold read.
  destruct (Z.eqb_spec type QueryTypes.A); [contradiction |].
  destruct (Z.eqb_spec type QueryTypes.AAAA); [contradiction |].
  destruct (Z.eqb_spec type QueryTypes.SRV); [contradiction |].
  destruct (Z.eqb_spec type QueryTypes.TXT); [contradiction |].
  destruct (Z.eqb_spec type QueryTypes.CNAME); [contradiction |].
  reflexivity.
Qed.

(** X6.  A lookup whose type, converted to [int], is none of A, AAAA,
    SRV, TXT and CNAME is sent to the resolver with that [int]; when the
    answer parses, the lookup delivers one empty JavaScript string per
    answer record and no error, whatever the records hold. *)
Theorem lookup_unrecognized_type query cls type state raw response
  (Htype : ~ In (int32_of_number type)
               [QueryTypes.A; QueryTypes.AAAA; QueryTypes.SRV;
                QueryTypes.TXT; QueryTypes.CNAME])
  (Hctor : DNSController_ctor = Ok state)
  (Hans : Lookup_answer state query (int32_of_number cls)
                        (int32_of_number type) = Ok raw)
  (Hresp : DNSReponse_ctor query raw = Ok response) :
  Lookup query cls type =
  CallbackResult (repeat (String_New EmptyString)
                         (List.length (records_ response))).
Proof.
  rewrite (Lookup_parsed _ _ _ _ _ Hctor Hans), Hresp.
  rewrite (DNSReponse_ctor_raw _ _ _ Hresp).
  rewrite (read_records_all raw (int32_of_number type) (records_ response) []
             (repeat EmptyString (List.length (records_ response)))).
  - cbn [app]. f_equal. induction (records_ response) as [| r records IH];
      simpl; [reflexivity | rewrite IH; reflexivity].
  - induction (records_ response) as [| r records IH]; simpl; constructor;
      [| exact IH].
    apply read_other; intros E; apply Htype; rewrite E; simpl; tauto.
Qed.

Lemma read_throw_cases mem r type e :
  read mem r type = Throw e ->
  ((type = QueryTypes.A \/ type = QueryTypes.AAAA) /\ e = A_error) \/
  ((type = QueryTypes.TXT \/ type = QueryTypes.CNAME) /\ e = TXT_error) \/
  (type = QueryTypes.SRV /\
   (e = length_error \/ exists cause, e = SRV_error (pos_ r) cause)).
Proof.
  intros H. destruct (read_throw _ _ _ _ H) as (HA & HTXT & HSRV & _).
  unfold read in H.
  destruct (Z.eqb_spec type QueryTypes.A); [left; auto |].
  destruct (Z.eqb_spec type QueryTypes.AAAA); [left; auto |].
  destruct (Z.eqb_spec type QueryTypes.SRV); [right; right; auto |].
  destruct (Z.eqb_spec type QueryTypes.TXT); [right; left; auto |].
  destruct (Z.eqb_spec type QueryTypes.CNAME); [right; left; auto |].
  discriminate H.
Qed.

Lemma DNSController_ctor_throw e :
  DNSController_ctor = Throw e -> exists errno, e = InitError (strerror errno).
Proof.
  unfold DNSController_ctor. destruct res_ninit as [[rc state] errno].
  destruct (negb (rc =? 0)); intros H; inversion H. eexists; reflexivity.
Qed.

Lemma Lookup_answer_throw state name cls type e :
  Lookup_answer state name cls type = Throw e ->
  exists h_errno, e = LookupError name (hstrerror h_errno).
Proof.
  unfold Lookup_answer.
  destruct (res_nsearch _ _ _ _ _) as [[rc stored] h].
  unfold store_bytes. destruct (Nat.ltb _ _); [discriminate |].
  cbn [bind]. destruct (rc <? 0); intros H; inversion H.
  eexists; reflexivity.
Qed.

Lemma DNSReponse_ctor_throw_cases search raw e :
  DNSReponse_ctor search raw = Throw e ->
  e = InvalidResponse search \/ exists pos cause, e = InvalidRecord pos cause.
Proof.
  unfold DNSReponse_ctor.
  destruct (ns_initparse raw 0 (N.of_nat (List.length raw))) as [rc handle].
  destruct (negb (rc =? 0)); [intros H; inversion H; left; reflexivity |].
  destruct (ns_msg_count handle ns_s_an =? 0)%N; [discriminate |].
  intros H. apply bind_Throw in H as [H | (ar & _ & H)]; [| discriminate H].
  right. exact (emplace_records_throw _ _ _ _ _ _ H).
Qed.

(** X3.  Every error a lookup delivers is the C string of one of these
    texts: the failed initialisation, the failed query with the name
    looked up, the unparsable answer with the name looked up, a record
    that could not be extracted with its index, or the text of the decoder
    of the type that was asked for, as converted to [int] (A and AAAA
    share one, TXT and CNAME share one, SRV names the record or is the
    length error of [std::string::resize]).  A lookup for any other type
    delivers no decoder error. *)
Theorem lookup_error_taxonomy query cls type message
  (Herr : Lookup query cls type = CallbackError message) :
  let kind := int32_of_number type in
  (exists errno, message = what (InitError (strerror errno))) \/
  (exists h_errno, message = what (LookupError query (hstrerror h_errno))) \/
  message = what (InvalidResponse query) \/
  (exists pos cause, message = what (InvalidRecord pos cause)) \/
  ((kind = QueryTypes.A \/ kind = QueryTypes.AAAA) /\
   message = "Invalid DNS A record receive") \/
  ((kind = QueryTypes.TXT \/ kind = QueryTypes.CNAME) /\
   message = "Invalid DNS TXT record received") \/
  (kind = QueryTypes.SRV /\
   (message = "basic_string::_M_replace_aux" \/
    exists pos cause,
      (cause = "Incorrect result size" \/ cause = "Invalid hostname format") /\
      message = "Incorrect result " ++ to_string pos ++ " of SRV answer: " ++
                cause)).
Proof.
  intros kind.
  assert (Hdeliver : forall w e,
            OnWorkComplete w (what e) = CallbackError message ->
            message = what e).
  { intros w e. unfold OnWorkComplete, OnOK.
    destruct (Nat.eqb _ 0); intros H; inversion H; reflexivity. }
  unfold Lookup, Queue, Execute in Herr. cbv zeta in Herr.
  cbn [name_ cls_ type_ result_] in Herr. fold kind in Herr.
  destruct DNSController_ctor as [state | e |] eqn:Hctor.
  - unfold DNSController_Lookup in Herr.
    destruct (Lookup_answer state query (int32_of_number cls) kind)
      as [raw | e |] eqn:Hans; cbn [bind] in Herr.
    + destruct (DNSReponse_ctor query raw) as [response | e |] eqn:Hresp.
      * destruct (read_records _ _ _ _) as [collected [[] | e |]] eqn:Hread;
          try discriminate Herr.
        apply Hdeliver in Herr as ->.
        apply read_records_throw in Hread as (record & _ & Hthrow).
        destruct (read_throw_cases _ _ _ _ Hthrow)
          as [[Ht ->] | [[Ht ->] | [Ht _]]].
        -- do 4 right. left. split; [exact Ht | reflexivity].
        -- do 5 right. left. split; [exact Ht | reflexivity].
        -- do 6 right. split; [exact Ht |].
           unfold read in Hthrow. rewrite Ht in Hthrow. cbn in Hthrow.
           apply asSRV_throw_cases in Hthrow as [-> | [-> | ->]].
           ++ left. reflexivity.
           ++ right. exists (pos_ record), "Incorrect result size".
              split; [left; reflexivity |]. apply what_SRV_error. reflexivity.
           ++ right. exists (pos_ record), "Invalid hostname format".
              split; [right; reflexivity |]. apply what_SRV_error. reflexivity.
      * apply Hdeliver in Herr as ->.
        apply DNSReponse_ctor_throw_cases in Hresp
          as [-> | (pos & cause & ->)].
        -- do 2 right. left. reflexivity.
        -- do 3 right. left. eauto.
      * discriminate Herr.
    + apply Hdeliver in Herr as ->.
      apply Lookup_answer_throw in Hans as [h ->]. right. left. eauto.
    + discriminate Herr.
  - apply Hdeliver in Herr as ->.
    apply DNSController_ctor_throw in Hctor as [errno ->]. left. eauto.
  - discriminate Herr.
Qed.

End Delivery.

Section CallsBack.

Context {L : Resolv} {J : Napi}.






End CallsBack.

(** ** Printed addresses read back *)

Lemma all_chars_impl (p q : ascii -> bool) s :
  (forall a, p a = true -> q a = true) ->
  all_chars p s = true -> all_chars q s = true.
Proof.
  intros Hpq. induction s as [| a s IH]; simpl; [reflexivity |].
  intros H. apply andb_prop in H as [Ha Hs].
  rewrite (Hpq _ Ha), (IH Hs). reflexivity.
Qed.

Lemma split_on_free c s : free_of c s = true -> split_on c s = (s, []).
Proof.
  unfold free_of. induction s as [| a s IH]; simpl; [reflexivity |].
  intros H. apply andb_prop in H as [Ha Hs]. rewrite (IH Hs).
  destruct (Ascii.eqb a c); [discriminate Ha | reflexivity].
Qed.

Lemma split_on_append c s t :
  free_of c s = true -> split_on c (s ++ String c t) = (s, fields c t).
Proof.
  unfold free_of, fields. induction s as [| a s IH]; simpl.
  - intros _. rewrite Ascii.eqb_refl. destruct (split_on c t); reflexivity.
  - intros H. apply andb_prop in H as [Ha Hs]. rewrite (IH Hs).
    destruct (Ascii.eqb a c); [discriminate Ha | reflexivity].
Qed.

(** Fields that do not hold the separator are read back as they were
    joined. *)
Lemma fields_concat c g gs :
  Forall (fun s => free_of c s = true) (g :: gs) ->
  fields c (String.concat (String c EmptyString) (g :: gs)) = g :: gs.
Proof.
  revert g. induction gs as [| g' gs IH]; intros g H;
    inversion H as [| ? ? Hg Hgs]; subst.
  - unfold fields. simpl. rewrite (split_on_free _ _ Hg). reflexivity.
  - change (String.concat (String c EmptyString) (g :: g' :: gs))
      with (g ++ String c (String.concat (String c EmptyString) (g' :: gs))).
    unfold fields at 1. rewrite (split_on_append _ _ _ Hg). cbn [fst snd].
    rewrite (IH g' Hgs). reflexivity.
Qed.

Lemma all_some_map_Some {A : Type} (l : list A) : all_some (map Some l) = Some l.
Proof.
  induction l as [| a l IH]; simpl; [reflexivity | rewrite IH; reflexivity].
Qed.

Lemma digit_not_dot a : is_digit a = true -> negb (Ascii.eqb a ".") = true.
Proof.
  intros H. destruct (Ascii.eqb_spec a "."); [subst; discriminate H | reflexivity].
Qed.

Lemma hex_not_colon a : is_lower_hex a = true -> negb (Ascii.eqb a ":") = true.
Proof.
  intros H. destruct (Ascii.eqb_spec a ":"); [subst; discriminate H | reflexivity].
Qed.

Lemma u8_inj a b : u8 a = u8 b -> a = b.
Proof.
  unfold u8. intros H. apply (f_equal Byte.of_N) in H.
  rewrite !Byte.of_to_N in H. congruence.
Qed.

Lemma map_u8_inj : forall p q, map u8 p = map u8 q -> p = q.
Proof.
  induction p as [| a p IH]; intros [| b q] H; try discriminate H;
    [reflexivity |].
  simpl in H. inversion H as [[Ha Hp]].
  rewrite (u8_inj _ _ Ha), (IH _ Hp). reflexivity.
Qed.

Lemma asA_Ok_four mem r p s :
  payload mem r = Ok p -> asA mem r = Ok s ->
  exists a b c d,
    p = [a; b; c; d] /\
    s = String.concat "." [to_string (u8 a); to_string (u8 b);
                           to_string (u8 c); to_string (u8 d)].
Proof.
  intros Hp Hs. pose proof (payload_length _ _ _ Hp) as Hlen.
  destruct (N.eq_dec (rdlength (record_ r)) 4) as [E | E].
  - destruct (four p) as (a & b & c & d & ->); [lia |].
    rewrite (asA_four _ _ _ _ _ _ Hp) in Hs. inversion Hs.
    exists a, b, c, d. split; reflexivity.
  - rewrite (asA_wrong_length _ _ E) in Hs. discriminate Hs.
Qed.

(** X8.  The text of an A record reads back as its payload: split at the
    periods, its four numbers are the four bytes, in order.  It is 7 to 15
    characters long, so the 20-character buffer never cuts it, and two
    different payloads never print the same text. *)
Theorem asA_round_trip mem r p s
  (Hp : payload mem r = Ok p)
  (Hs : asA mem r = Ok s) :
  dotted_decimal s = Some (map u8 p) /\
  (7 <= String.length s <= 15)%nat /\
  (forall mem' r' p',
     payload mem' r' = Ok p' -> asA mem' r' = Ok s -> p' = p).
Proof.
  assert (Hread : forall mem r p s,
            payload mem r = Ok p -> asA mem r = Ok s ->
            dotted_decimal s = Some (map u8 p)).
  { clear. intros mem r p s Hp Hs.
    destruct (asA_Ok_four _ _ _ _ Hp Hs) as (a & b & c & d & -> & ->).
    unfold dotted_decimal. rewrite fields_concat.
    - simpl map.
      rewrite (proj2 (proj2 (to_string_octet a))),
              (proj2 (proj2 (to_string_octet b))),
              (proj2 (proj2 (to_string_octet c))),
              (proj2 (proj2 (to_string_octet d))).
      reflexivity.
    - repeat constructor;
        apply (all_chars_impl is_digit _ _ digit_not_dot);
        apply to_string_octet. }
  split; [exact (Hread _ _ _ _ Hp Hs) |]. split.
  - destruct (asA_Ok_four _ _ _ _ Hp Hs) as (a & b & c & d & _ & ->).
    destruct (to_string_octet a) as (Ha & _).
    destruct (to_string_octet b) as (Hb & _).
    destruct (to_string_octet c) as (Hc & _).
    destruct (to_string_octet d) as (Hd & _).
    cbn [String.concat]. rewrite !length_append. simpl String.length. lia.
  - intros mem' r' p' Hp' Hs'.
    pose proof (Hread _ _ _ _ Hp Hs) as E.
    rewrite (Hread _ _ _ _ Hp' Hs') in E. inversion E as [E'].
    exact (map_u8_inj _ _ E').
Qed.

Lemma asA_round_trip_witness :
  dotted_decimal "192.168.0.255" = Some [192; 168; 0; 255]%N.
Proof.
  exact (proj1 (asA_round_trip [xc0; xa8; x00; xff]
                  (Samples.whole [xc0; xa8; x00; xff]) [xc0; xa8; x00; xff]
                  "192.168.0.255" eq_refl eq_refl)).
Defined.

Lemma pairs_ind (P : list byte -> Prop) :
  P [] -> (forall a, P [a]) -> (forall a b l, P l -> P (a :: b :: l)) ->
  forall l, P l.
Proof.
  intros H0 H1 H2 l.
  assert (H : P l /\ forall a, P (a :: l)).
  { induction l as [| b l [IH IH']]; [split; auto |].
    split; [apply IH' | intros a; apply H2; exact IH]. }
  exact (proj1 H).
Qed.

Lemma fmt_groups_free (p : list byte) :
  Forall (fun s => free_of ":" s = true) (fmt_groups p).
Proof.
  induction p as [| a | hi lo l IH] using pairs_ind; simpl; constructor;
    [| exact IH].
  apply (all_chars_impl is_lower_hex _ _ hex_not_colon).
  apply (fmt_group hi lo).
Qed.

Lemma fmt_groups_values (p : list byte) :
  map hex_value (fmt_groups p) = map Some (be16_pairs p).
Proof.
  induction p as [| a | hi lo l IH] using pairs_ind; simpl;
    try reflexivity.
  rewrite IH, (proj2 (proj2 (fmt_group hi lo))). reflexivity.
Qed.

Lemma be16_inj a b c d : be16 a b = be16 c d -> a = c /\ b = d.
Proof.
  unfold be16. intros H.
  pose proof (Byte.to_N_bounded a). pose proof (Byte.to_N_bounded b).
  pose proof (Byte.to_N_bounded c). pose proof (Byte.to_N_bounded d).
  unfold u8 in H. split; apply u8_inj; unfold u8; lia.
Qed.

Lemma be16_pairs_inj : forall p q,
  List.length p = 16%nat -> List.length q = 16%nat ->
  be16_pairs p = be16_pairs q -> p = q.
Proof.
  intros p q Hp Hq H.
  destruct (sixteen p Hp) as
    (a0 & a1 & a2 & a3 & a4 & a5 & a6 & a7 & a8 & a9 & a10 & a11 & a12 &
     a13 & a14 & a15 & ->).
  destruct (sixteen q Hq) as
    (b0 & b1 & b2 & b3 & b4 & b5 & b6 & b7 & b8 & b9 & b10 & b11 & b12 &
     b13 & b14 & b15 & ->).
  simpl in H. inversion H.
  repeat match goal with
         | E : be16 _ _ = be16 _ _ |- _ =>
             apply be16_inj in E; destruct E as [-> ->]
         end.
  reflexivity.
Qed.

Lemma asAAAA_Ok_sixteen mem r p s :
  payload mem r = Ok p -> asAAAA mem r = Ok s ->
  List.length p = 16%nat /\ s = String.concat ":" (fmt_groups p).
Proof.
  intros Hp Hs. pose proof (payload_length _ _ _ Hp) as Hlen.
  destruct (N.eq_dec (rdlength (record_ r)) 16) as [E | E].
  - assert (H16 : List.length p = 16%nat) by lia.
    rewrite (asAAAA_sixteen _ _ _ Hp H16) in Hs. inversion Hs. auto.
  - rewrite (asAAAA_wrong_length _ _ E) in Hs. discriminate Hs.
Qed.

(** X10.  The text of an AAAA record reads back as its payload: split at
    the colons, its eight hexadecimal numbers are the big-endian values of
    the eight byte pairs, in order; two different payloads never print the
    same text. *)
Theorem asAAAA_round_trip mem r p s
  (Hp : payload mem r = Ok p)
  (Hs : asAAAA mem r = Ok s) :
  colon_hex s = Some (be16_pairs p) /\
  List.length (be16_pairs p) = 8%nat /\
  (forall mem' r' p',
     payload mem' r' = Ok p' -> asAAAA mem' r' = Ok s -> p' = p).
Proof.
  assert (Hread : forall mem r p s,
            payload mem r = Ok p -> asAAAA mem r = Ok s ->
            colon_hex s = Some (be16_pairs p)).
  { clear. intros mem r p s Hp Hs.
    destruct (asAAAA_Ok_sixteen _ _ _ _ Hp Hs) as (H16 & ->).
    unfold colon_hex. pose proof (fmt_groups_free p) as Hfree.
    pose proof (fmt_groups_length p H16) as Hl.
    destruct (fmt_groups p) as [| g gs] eqn:Eg; [discriminate Hl |].
    rewrite (fields_concat _ _ _ Hfree), <- Eg, fmt_groups_values.
    apply all_some_map_Some. }
  destruct (asAAAA_Ok_sixteen _ _ _ _ Hp Hs) as (H16 & _).
  split; [exact (Hread _ _ _ _ Hp Hs) |]. split.
  - destruct (sixteen p H16) as
      (b0 & b1 & b2 & b3 & b4 & b5 & b6 & b7 & b8 & b9 & b10 & b11 & b12 &
       b13 & b14 & b15 & ->). reflexivity.
  - intros mem' r' p' Hp' Hs'.
    destruct (asAAAA_Ok_sixteen _ _ _ _ Hp' Hs') as (H16' & _).
    pose proof (Hread _ _ _ _ Hp Hs) as E.
    rewrite (Hread _ _ _ _ Hp' Hs') in E. inversion E as [E'].
    exact (be16_pairs_inj _ _ H16' H16 E').
Qed.

Lemma asAAAA_round_trip_witness :
  colon_hex "2001:0db8:0000:0000:0000:0000:0000:ab01"
  = Some [8193; 3512; 0; 0; 0; 0; 0; 43777]%N.
Proof.
  exact (proj1 (asAAAA_round_trip Samples.ipv6_payload
                  (Samples.whole Samples.ipv6_payload) Samples.ipv6_payload
                  "2001:0db8:0000:0000:0000:0000:0000:ab01"
                  eq_refl eq_refl)).
Defined.

(** X7.  SRV decoding does not depend on the byte order of the host: on
    two systems that differ in it alone, [memcpy] followed by [ntohs]
    yields the same priority, weight and port, and the same text. *)
Theorem asSRV_host_byte_order (state : Type) init search initparse parserr
  expand (describe describe_h : Z -> string) mem r :
  asSRV (L := Build_Resolv state init search initparse parserr expand
                           describe describe_h true) mem r =
  asSRV (L := Build_Resolv state init search initparse parserr expand
                           describe describe_h false) mem r.
Proof.
  unfold asSRV. cbn [host_little_endian dn_expand rawData].
  destruct (_ || _); [reflexivity |].
  repeat (match goal with
          | |- bind ?c _ = bind ?c _ =>
              destruct c as [? | ? |]; cbn [bind]; try reflexivity
          end).
  cbn [priority weight port]. rewrite !ntohs_be. reflexivity.
Qed.

(** ** The theorems of the worker on concrete messages *)

Lemma lookup_delivers_in_order_witness :
  Lookup (L := Wire.resolv (Samples.reply Samples.a_message))
    "a.b" ns_c_in QueryTypes.A
  = CallbackResult (map String_New ["127.0.0.1"; "10.0.0.255"]).
Proof.
  refine (lookup_delivers_in_order
            (L := Wire.resolv (Samples.reply Samples.a_message))
            "a.b" ns_c_in QueryTypes.A tt Samples.a_message
            (Samples.parsed_response Samples.a_message)
            ["127.0.0.1"; "10.0.0.255"] eq_refl _ _ _).
  - vm_compute; reflexivity.
  - vm_compute; reflexivity.
  - assert (E : records_ (Samples.parsed_response Samples.a_message)
                = [Samples.record_at 1 33 4 53 0; Samples.record_at 1 49 4 53 1])
      by (vm_compute; reflexivity).
    rewrite E. repeat constructor.
Defined.

(** The type 4294967311 is 15 as an [int]: an MX lookup. *)
Lemma lookup_unrecognized_type_witness :
  Lookup (L := Wire.resolv (Samples.reply Samples.a_message))
    "a.b" ns_c_in 4294967311
  = CallbackResult [String_New EmptyString; String_New EmptyString].
Proof.
  refine (lookup_unrecognized_type
            (L := Wire.resolv (Samples.reply Samples.a_message))
            "a.b" ns_c_in 4294967311 tt Samples.a_message
            (Samples.parsed_response Samples.a_message) _ eq_refl _ _).
  - simpl. intros [H | [H | [H | [H | [H | H]]]]]; try discriminate H.
    exact H.
  - vm_compute; reflexivity.
  - vm_compute; reflexivity.
Defined.

(** The type 4294967297 is 1 as an [int]: an A lookup, with the error of
    the A decoder. *)
Lemma lookup_error_taxonomy_witness :
  (int32_of_number 4294967297 = QueryTypes.A \/
   int32_of_number 4294967297 = QueryTypes.AAAA) /\
  Lookup (L := Wire.resolv (Samples.reply Samples.bad_a_message))
    "a.b" ns_c_in 4294967297
  = CallbackError "Invalid DNS A record receive".
Proof.
  assert (E : Lookup (L := Wire.resolv (Samples.reply Samples.bad_a_message))
                "a.b" ns_c_in 4294967297
              = CallbackError "Invalid DNS A record receive")
    by (vm_compute; reflexivity).
  split; [| exact E].
  destruct (lookup_error_taxonomy
              (L := Wire.resolv (Samples.reply Samples.bad_a_message))
              "a.b" ns_c_in 4294967297 "Invalid DNS A record receive" E)
    as [(? & H) | [(? & H) | [H | [(? & ? & H) | [[H _] | [[_ H] | [H _]]]]]]];
    try (exfalso; vm_compute in H; discriminate H);
    try (exfalso; vm_compute in H; destruct H as [H | H]; discriminate H).
  exact H.
Defined.


(** ** Extraction and the SRV header, seen from the message *)

Section Extraction.

Context {L : Resolv}.

Lemma emplace_records_first_failure mem : forall count answer i acc e,
  emplace_records mem answer i count acc = Throw e ->
  exists k answer' records,
    (k < count)%nat /\
    emplace_records mem answer i k acc = Ok (answer', records) /\
    fst (fst (fst (ns_parserr mem answer' ns_s_an
                              (Z.of_N (i + N.of_nat k))))) <> 0 /\
    e = InvalidRecord (i + N.of_nat k)
          (strerror (snd (ns_parserr mem answer' ns_s_an
                                     (Z.of_N (i + N.of_nat k))))).
Proof.
  induction count as [| count IH]; intros answer i acc e H; [discriminate |].
  cbn [emplace_records] in H.
  destruct (ResourceRecord_ctor mem answer i) as [[m r] | e' |] eqn:Hctor;
    cbn [bind fst snd] in H.
  - apply IH in H as (k & answer' & records & Hk & Hloop & Hrc & He).
    exists (S k), answer', records.
    replace (i + N.of_nat (S k))%N with (i + 1 + N.of_nat k)%N by lia.
    repeat split; [lia | | exact Hrc | exact He].
    cbn [emplace_records]. rewrite Hctor. exact Hloop.
  - inversion H; subst e'. exists 0%nat, answer, acc.
    rewrite N.add_0_r. unfold ResourceRecord_ctor in Hctor.
    destruct (ns_parserr mem answer ns_s_an (Z.of_N i)) as [[[rc m] rr] errno].
    cbn [fst snd].
    destruct (Z.eqb_spec rc 0) as [| Hrc]; [discriminate Hctor |].
    inversion Hctor. repeat split; [lia | exact Hrc].
  - discriminate H.
Qed.

(** X13.  When the message parses and the response constructor throws,
    the exception is "Invalid record i of DNS answer" for the first index
    [i] whose extraction fails: [i] is below the declared count, the [i]
    records before it were extracted, and the text ends with the system's
    description of the [errno] that extraction left. *)
Theorem extraction_error_is_first_failure search raw handle e
  (Hparse : ns_initparse raw 0 (N.of_nat (List.length raw)) = (0, handle))
  (Hthrow : DNSReponse_ctor search raw = Throw e) :
  exists i answer records,
    (N.of_nat i < ns_msg_count handle ns_s_an)%N /\
    emplace_records raw handle 0 i [] = Ok (answer, records) /\
    List.length records = i /\
    fst (fst (fst (ns_parserr raw answer ns_s_an (Z.of_nat i)))) <> 0 /\
    e = InvalidRecord (N.of_nat i)
          (strerror (snd (ns_parserr raw answer ns_s_an (Z.of_nat i)))).
Proof.
  unfold DNSReponse_ctor in Hthrow. rewrite Hparse in Hthrow.
  cbn [Z.eqb negb] in Hthrow.
  destruct (ns_msg_count handle ns_s_an =? 0)%N; [discriminate Hthrow |].
  apply bind_Throw in Hthrow as [H | (ar & _ & H)]; [| discriminate H].
  apply emplace_records_first_failure
    in H as (k & answer & records & Hk & Hloop & Hrc & He).
  rewrite N.add_0_l, nat_N_Z in Hrc, He.
  exists k, answer, records. repeat split; try assumption; [lia |].
  apply emplace_records_Ok in Hloop as (new & -> & Hlen & _). exact Hlen.
Qed.

(** X14.  What holds of the SRV header in terms of the payload, for a
    record whose payload lies in the message.  With at least 6 payload
    bytes the size check passes and priority, weight and port are the
    big-endian values of payload bytes 0-1, 2-3 and 4-5.  With fewer than
    6 payload bytes, decoding fails with "Incorrect result size" when the
    record is the last thing in the message. *)
Theorem asSRV_header_in_payload mem r p
  (Hp : payload mem r = Ok p)
  (Hs : 0 <= start_ r)
  (He : end_ r <= Z.of_nat (List.length mem))
  (Hlo : start_ r <= rdata (record_ r))
  (Hhi : rdata (record_ r) + Z.of_N (rdlength (record_ r)) <= end_ r) :
  let expansion :=
    dn_expand mem (start_ r) (end_ r) (rdata (record_ r) + 6) 8192 in
  ((6 <= List.length p)%nat ->
   exists p0 p1 w0 w1 t0 t1 rest,
     p = p0 :: p1 :: w0 :: w1 :: t0 :: t1 :: rest /\
     forall name,
       expansion_fits mem r -> 1 <= fst expansion ->
       c_str (snd expansion) = Some name ->
       asSRV mem r =
       Ok (name ++ ":" ++ to_string (be16 t0 t1) ++
           ",prio=" ++ to_string (be16 p0 p1) ++
           ",weight=" ++ to_string (be16 w0 w1))) /\
  ((List.length p < 6)%nat ->
   rdata (record_ r) + Z.of_N (rdlength (record_ r)) = end_ r ->
   asSRV mem r = Throw (SRV_error (pos_ r) "Incorrect result size")).
Proof.
  intros expansion. pose proof (payload_length _ _ _ Hp) as Hlen. split.
  - intros H6.
    destruct (asSRV_expand mem r Hs He Hlo) as
      (p0 & p1 & w0 & w1 & t0 & t1 & Hraw & E); [lia |].
    fold expansion in E.
    unfold payload, rawData, ns_rr_rdata, ns_rr_rdlen in Hp; simpl in Hp.
    rewrite (load_range_firstn _ 6 _ _ _ Hp) in Hraw by lia.
    inversion Hraw as [Hfirst].
    destruct p as [| a0 [| a1 [| a2 [| a3 [| a4 [| a5 rest]]]]]];
      simpl in H6; try lia.
    simpl in Hfirst. inversion Hfirst; subst.
    exists p0, p1, w0, w1, t0, t1, rest. split; [reflexivity |].
    intros name Hfits Hsize Hname. rewrite E.
    unfold expansion_fits, sizeof_SrvHeader in Hfits. fold expansion in Hfits.
    destruct (c_str_store (string_fill (N.to_nat 8192) "@")
                (snd expansion) name) as (buf & Hst & Hbuf);
      [rewrite string_fill_length; lia | exact Hname |].
    rewrite Hst. cbn [bind].
    destruct (Z.ltb_spec (fst expansion) 1); [lia |].
    rewrite Hbuf. reflexivity.
  - intros H6 Hlast. apply asSRV_header_check. right. lia.
Qed.

End Extraction.

Lemma extraction_error_is_first_failure_witness :
  exists i answer records,
    (N.of_nat i < 2)%N /\
    emplace_records (L := Wire.resolv (Samples.reply Samples.bad_owner_message))
      Samples.bad_owner_message
      (Samples.parsed_handle Samples.bad_owner_message) 0 i []
    = Ok (answer, records) /\
    List.length records = i /\
    fst (fst (fst (Wire.ns_parserr Samples.bad_owner_message answer ns_s_an
                                   (Z.of_nat i)))) <> 0 /\
    InvalidRecord 1 "Message too long" =
    InvalidRecord (N.of_nat i)
      (strerror (L := Wire.resolv (Samples.reply Samples.bad_owner_message))
         (snd (Wire.ns_parserr Samples.bad_owner_message answer ns_s_an
                               (Z.of_nat i)))).
Proof.
  refine (extraction_error_is_first_failure
            (L := Wire.resolv (Samples.reply Samples.bad_owner_message))
            "a.b" Samples.bad_owner_message
            (Samples.parsed_handle Samples.bad_owner_message)
            (InvalidRecord 1 "Message too long") _ _).
  - vm_compute; reflexivity.
  - vm_compute; reflexivity.
Defined.

Lemma asSRV_header_in_payload_witness :
  asSRV (L := Wire.resolv (Samples.reply Samples.srv_message))
    Samples.srv_message Samples.srv_record
  = Ok "svc.example.com:80,prio=1,weight=2" /\
  asSRV (L := Wire.resolv (Samples.reply [x00; x01; x00; x02]))
    [x00; x01; x00; x02] (Samples.whole [x00; x01; x00; x02])
  = Throw (SRV_error 0 "Incorrect result size").
Proof.
  split.
  - destruct (asSRV_header_in_payload
                (L := Wire.resolv (Samples.reply Samples.srv_message))
                Samples.srv_message Samples.srv_record Samples.svc_rdata)
      as [H _].
    + vm_compute; reflexivity.
    + simpl; lia.
    + simpl; lia.
    + simpl; lia.
    + simpl; lia.
    + destruct H as (p0 & p1 & w0 & w1 & t0 & t1 & rest & Hp & H);
        [simpl; lia |].
      vm_compute in Hp. inversion Hp; subst.
      apply (H "svc.example.com");
        [vm_compute; discriminate | vm_compute; discriminate | reflexivity].
  - apply (asSRV_header_in_payload
             (L := Wire.resolv (Samples.reply [x00; x01; x00; x02]))
             [x00; x01; x00; x02] (Samples.whole [x00; x01; x00; x02])
             [x00; x01; x00; x02] eq_refl);
      simpl; lia.
Defined.
